(* Shallow embedding of the feed-type resolution and URL discovery pipeline of
   go-syndication (parser.go, atom, rss, jsonfeed, sanitization).

   Conventions:
   - Go [string] and [[]byte] values are Rocq [string]s: sequences of bytes,
     UTF-8 encoded where the code decodes them.
   - [time.Time] is an instant in [Z] nanoseconds relative to the Unix
     epoch, so [time.Unix(0, 0)] is [0] and [t.After(u)] is [u < t].
   - Libraries outside this repository (encoding/xml, encoding/json, the
     go-playground validator, resty, net/url, mime, golang.org/x/net/html,
     bluemonday) are Section variables: every theorem holds for any of their
     behaviours unless it states a hypothesis about them. *)

From Stdlib Require Import String Ascii List Bool ZArith Lia Permutation Sorted.
Import ListNotations.
Open Scope string_scope.

(* ------------------------------------------------------------------------- *)
(** * Shared helpers *)

(** [strings.HasSuffix]. *)
Definition has_suffix (s suffix : string) : bool :=
  let n := String.length s in
  let m := String.length suffix in
  (m <=? n)%nat && String.eqb (substring (n - m) m s) suffix.

(** [bytes.Contains] / [strings.Contains]. *)
Fixpoint contains (s sub : string) : bool :=
  if String.prefix sub s then true
  else match s with
       | EmptyString => false
       | String _ rest => contains rest sub
       end.

(** [slices.Contains] on a slice of strings. *)
Definition slices_contains (l : list string) (v : string) : bool :=
  existsb (String.eqb v) l.

(** [slices.IndexFunc]: [None] stands for the index [-1]. *)
Fixpoint index_func {A} (p : A -> bool) (l : list A) : option nat :=
  match l with
  | [] => None
  | x :: xs => if p x then Some 0 else option_map S (index_func p xs)
  end.

(* ------------------------------------------------------------------------- *)
(** * types: media types (types/types.go) *)

Definition MimeTypesRSS : list string := ["application/rss+xml"; "application/rdf+xml"].
Definition MimeTypesAtom : list string := ["application/atom+xml"].
Definition MimeTypesIndeterminate : list string := ["application/xml"; "text/xml"].
Definition MimeTypesJSONFeed : list string := ["application/feed+json"; "application/json"].
(** [slices.Concat(MimeTypesAtom, MimeTypesRSS, MimeTypesIndeterminate)]. *)
Definition MimeTypesFeed : list string :=
  MimeTypesAtom ++ MimeTypesRSS ++ MimeTypesIndeterminate.
Definition MimeTypesHTML : list string := ["text/html"; "application/xhtml+xml"].

(* ------------------------------------------------------------------------- *)
(** * The Feed wrapper (parser.go) *)

(** The type parameter [T] of [NewFeedFromBytes[T]] as used in the package:
    [*rss.RSS], [*atom.Feed] and [*jsonfeed.Feed]. *)
Inductive FeedKind := KindRSS | KindAtom | KindJSONFeed.

(** A decoded document, seen through the part of the common surface the
    pipeline touches: its self-reported source URL.  The remaining fields are
    carried opaquely in [doc_body]. *)
Record Doc := mkDoc { doc_source_url : string; doc_body : string }.

(** The concrete value held in the [FeedSource] interface field. *)
Inductive FeedSource :=
| SrcRSS (d : Doc)        (* *rss.RSS *)
| SrcAtom (d : Doc)       (* *atom.Feed *)
| SrcJSONFeed (d : Doc).  (* *jsonfeed.Feed *)

Definition source_of (k : FeedKind) (d : Doc) : FeedSource :=
  match k with
  | KindRSS => SrcRSS d
  | KindAtom => SrcAtom d
  | KindJSONFeed => SrcJSONFeed d
  end.

Definition source_doc (s : FeedSource) : Doc :=
  match s with SrcRSS d | SrcAtom d | SrcJSONFeed d => d end.

(** [SourceType], the string type of package feeds, with its constants
    [TypeRSS] (["RSS"]), [TypeAtom] (["Atom"]) and [TypeJSONFeed]
    (["JSONFeed"]) (src/opml/opml_test.go, lines 180-190);
    [SourceTypeEmpty] is the zero value [""] that [parseSource] returns in
    its default case. *)
Inductive SourceType := SourceTypeEmpty | TypeRSS | TypeAtom | TypeJSONFeed.

Record Feed := mkFeed { FeedSource_of : FeedSource; SourceType_of : SourceType }.

(** [parseSource]: a type switch on the dynamic type of the value. *)
Definition parseSource (s : FeedSource) : SourceType :=
  match s with
  | SrcAtom _ => TypeAtom
  | SrcRSS _ => TypeRSS
  | _ => SourceTypeEmpty
  end.

(** [NewFeedFromSource]. *)
Definition NewFeedFromSource (s : FeedSource) : Feed :=
  {| FeedSource_of := s; SourceType_of := parseSource s |}.

(** [GetSourceURL] / [SetSourceURL] of the wrapped source. *)
Definition GetSourceURL (f : Feed) : string := doc_source_url (source_doc (FeedSource_of f)).

Definition set_doc_url (d : Doc) (u : string) : Doc := mkDoc u (doc_body d).

Definition SetSourceURL (f : Feed) (u : string) : Feed :=
  let s := match FeedSource_of f with
           | SrcRSS d => SrcRSS (set_doc_url d u)
           | SrcAtom d => SrcAtom (set_doc_url d u)
           | SrcJSONFeed d => SrcJSONFeed (set_doc_url d u)
           end in
  {| FeedSource_of := s; SourceType_of := SourceType_of f |}.

(** Errors, by the message the code wraps. *)
Inductive Error :=
| ErrParseBytesDecode                  (* "%w: %w", ErrParseBytes, decode error *)
| ErrParseBytesInvalid (v : string)    (* "%w: feed is not valid: %w" *)
| ErrParseURLTransport                 (* "%w: %w", ErrParseURL, transport error *)
| ErrParseURLStatus (status : string)  (* "%w: %s", ErrParseURL, resp.Status() *)
| ErrParseURLMissingContentType        (* "missing Content-Type header" *)
| ErrParseURLUnsupported (content : string) (* "unsupported feed media type: %s" *)
| ErrCouldNotParseAs (format : string).     (* "could not parse as atom/rss: %w" *)

Section Bytes.

(** [Decode[T]] (encoding/xml) or [json.Unmarshal] (encoding/json) for the
    kind: [None] is a decode error. *)
Variable decode : FeedKind -> string -> option Doc.
(** [feed.Validate()]: [None] is a nil error, [Some msg] a validation error. *)
Variable validate : FeedSource -> option string.

(** [NewFeedFromBytes[T]]: returns the pair of a [*Feed] and an [error]; every
    [FeedSource] assertion succeeds, since the three kinds implement
    [types.FeedSource]. *)
Definition NewFeedFromBytes (k : FeedKind) (data : string) : option Feed * option Error :=
  match decode k data with
  | None => (None, Some ErrParseBytesDecode)
  | Some d =>
      let original := source_of k d in
      let feed := {| FeedSource_of := original; SourceType_of := parseSource original |} in
      match validate (FeedSource_of feed) with
      | Some v => (None, Some (ErrParseBytesInvalid v))
      | None => (Some feed, None)
      end
  end.

End Bytes.

(* ------------------------------------------------------------------------- *)
(** * Feed URL discovery ([discoverFeedURL], parser.go) *)

(** [html.Attribute] (its namespace is unused by the code). *)
Record Attribute := mkAttr { Key : string; Val : string }.

(** [html.TokenType] without [ErrorToken]: a document is the list of tokens
    that [html.Tokenizer.Next] yields before its first [ErrorToken]; the end
    of the list is that [ErrorToken], with [page.Err()] equal to [io.EOF]
    (or to the read error that stopped the tokenizer). *)
Inductive TokenType :=
| TextToken | StartTagToken | EndTagToken | SelfClosingTagToken
| CommentToken | DoctypeToken.

(** [html.Token]: [Data] is the lower-cased tag name, so [DataAtom] is
    [atom.Link] exactly when [Data] is "link". *)
Record Token := mkToken { TokType : TokenType; Data : string; Attr : list Attribute }.

Inductive DiscoverError :=
| DiscoverURLParse   (* "discover feed url: %w", url.Parse error *)
| DiscoverTokenizer  (* "discover feed url: %w", page.Err() at the ErrorToken *)
| DiscoverJoinPath.  (* "discover feed url: %w", url.JoinPath error *)

(** The results of [discoverFeedURL]: a returned [(string, nil)], a returned
    [(string, error)], or a run-time panic. *)
Inductive DiscoverResult :=
| DOk (u : string)
| DErr (v : string) (e : DiscoverError)
| DPanic.

(** The attribute predicates of the closures in [discoverFeedURL]. *)
Definition is_rel_alternate (a : Attribute) : bool :=
  String.eqb (Key a) "rel" && String.eqb (Val a) "alternate".
Definition is_feed_type (a : Attribute) : bool :=
  String.eqb (Key a) "type" && slices_contains MimeTypesFeed (Val a).
Definition is_href_feed_name (a : Attribute) : bool :=
  String.eqb (Key a) "href" && slices_contains ["feed"; "rss"; "atom"] (Val a).
Definition is_href (a : Attribute) : bool := String.eqb (Key a) "href".
Definition is_href_feed_suffix (a : Attribute) : bool :=
  String.eqb (Key a) "href" && has_suffix (Val a) "feed".

Section Discovery.

(** net/url: [url.Parse], [URL.IsAbs], the [Path] field and its
    assignment, [URL.String] and [url.JoinPath]. *)
Variable URL : Type.
Variable url_Parse : string -> option URL.
Variable url_IsAbs : URL -> bool.
Variable url_Path : URL -> string.
Variable url_SetPath : URL -> string -> URL.
Variable url_String : URL -> string.
Variable url_JoinPath : string -> string -> option string.

(** The tail of the loop body once [feedURL] is non-nil. *)
Definition resolve_feed_url (pageURL feedURL : URL) : DiscoverResult :=
  if url_IsAbs feedURL then DOk (url_String feedURL)
  else match url_JoinPath "/" (url_Path feedURL) with
       | None => DErr EmptyString DiscoverJoinPath
       | Some fullPath => DOk (url_String (url_SetPath pageURL fullPath))
       end.

(** [feedURL, err = url.Parse(tkn.Attr[idx].Val)] and what follows; an index
    outside the slice panics. *)
Definition use_attr (pageURL : URL) (attrs : list Attribute) (idx : nat) : DiscoverResult :=
  match nth_error attrs idx with
  | None => DPanic
  | Some a =>
      match url_Parse (Val a) with
      | None => DErr (Val a) DiscoverURLParse
      | Some feedURL => resolve_feed_url pageURL feedURL
      end
  end.

(** The tokenizer loop of [discoverFeedURL]. *)
Fixpoint scan (pageURL : URL) (tokens : list Token) : DiscoverResult :=
  match tokens with
  | [] => DErr EmptyString DiscoverTokenizer
  | tkn :: rest =>
      match TokType tkn with
      | SelfClosingTagToken =>
          if negb (String.eqb (Data tkn) "link") then scan pageURL rest else
          let found :=
            (existsb is_rel_alternate (Attr tkn) && existsb is_feed_type (Attr tkn))
            || existsb is_href_feed_name (Attr tkn) in
          if negb found then scan pageURL rest else
          match index_func is_href (Attr tkn) with
          | Some 0 => scan pageURL rest          (* if idx == 0 { continue } *)
          | Some idx => use_attr pageURL (Attr tkn) idx
          | None => DPanic                      (* tkn.Attr[-1] *)
          end
      | StartTagToken =>
          if negb (String.eqb (Data tkn) "a") then scan pageURL rest else
          if negb (existsb is_href_feed_suffix (Attr tkn)) then scan pageURL rest else
          match index_func is_href_feed_suffix (Attr tkn) with
          | None => scan pageURL rest            (* if idx == -1 { continue } *)
          | Some idx => use_attr pageURL (Attr tkn) idx
          end
      | _ => scan pageURL rest                  (* feedURL == nil *)
      end
  end.

(** [discoverFeedURL(path, content)], [content] given as its token stream. *)
Definition discoverFeedURL (path : string) (tokens : list Token) : DiscoverResult :=
  match url_Parse path with
  | None => DErr EmptyString DiscoverURLParse
  | Some pageURL => scan pageURL tokens
  end.

End Discovery.

(* ------------------------------------------------------------------------- *)
(** * The per-URL pipeline ([parseFeedURL], parser.go) *)

(** A resty response: a transport error, or a status code, the status line,
    the [Content-Type] header ([Header().Get] yields the empty string when it
    is missing) and the body. *)
Inductive Response :=
| TransportError
| Resp (code : Z) (status : string) (content_type : string) (body : string).

(** [resp.IsError()]: a status code above 399. *)
Definition IsError (code : Z) : bool := (399 <? code)%Z.

(** [FeedResult]. *)
Record FeedResult := mkFeedResult
  { URL_of : string; Feed_of : option Feed; Err_of : option Error }.

(** The outcomes of a call of [parseFeedURL]: a returned [FeedResult], a
    run-time panic, or recursion deeper than the fuel given to the model. *)
Inductive ParseOutcome :=
| Returned (r : FeedResult)
| Panicked
| OutOfFuel.

(** [errors.Is(err, &validator.InvalidValidationError{})]: the target is a
    freshly allocated pointer that no error of the chain is equal to, and
    [InvalidValidationError] has no [Is] method, so the test is false. *)
Definition is_invalid_validation_error (e : Error) : bool := false.

Section Pipeline.

Variable decode : FeedKind -> string -> option Doc.
Variable validate : FeedSource -> option string.
(** [client.R().SetContext(ctx).Get(url)]. *)
Variable fetch : string -> Response.
(** [mime.ParseMediaType]: the media type, or [None] on error. *)
Variable ParseMediaType : string -> option string.
(** [html.NewTokenizer(bytes.NewReader(content))], as its token stream. *)
Variable tokenize : string -> list Token.
Variable URL : Type.
Variable url_Parse : string -> option URL.
Variable url_IsAbs : URL -> bool.
Variable url_Path : URL -> string.
Variable url_SetPath : URL -> string -> URL.
Variable url_String : URL -> string.
Variable url_JoinPath : string -> string -> option string.

(** [isMimeType]. *)
Definition isMimeType (content : string) (mimeTypes : list string) : bool :=
  match ParseMediaType content with
  | None => false
  | Some mediatype => slices_contains mimeTypes mediatype
  end.

Let newFeedFromBytes := NewFeedFromBytes decode validate.
Let discover := discoverFeedURL URL url_Parse url_IsAbs url_Path url_SetPath url_String url_JoinPath.

(** The code after the [switch]: [(feed, err)] are the variables the switch
    assigned; a nil [feed] with a nil [err] is dereferenced. *)
Definition finish (url : string) (feed : option Feed) (err : option Error) : ParseOutcome :=
  match err with
  | Some e => Returned (mkFeedResult url None (Some e))
  | None =>
      match feed with
      | None => Panicked
      | Some f =>
          let f' := if String.eqb (GetSourceURL f) EmptyString
                       || negb (String.eqb (GetSourceURL f) url)
                    then SetSourceURL f url else f in
          Returned (mkFeedResult url (Some f') None)
      end
  end.

(** The [<feed] and [<rss] cases of the ambiguous media types. *)
Definition sniffed (url : string) (k : FeedKind) (format body : string) : ParseOutcome :=
  let '(feed, err) := newFeedFromBytes k body in
  match err with
  | Some e =>
      if is_invalid_validation_error e
      then Returned (mkFeedResult EmptyString None (Some (ErrCouldNotParseAs format)))
      else finish url feed err
  | None => finish url feed err
  end.

Fixpoint parseFeedURL (fuel : nat) (url : string) : ParseOutcome :=
  match fuel with
  | O => OutOfFuel
  | S fuel' =>
      match fetch url with
      | TransportError => Returned (mkFeedResult url None (Some ErrParseURLTransport))
      | Resp code status content body =>
          if IsError code then
            Returned (mkFeedResult EmptyString None (Some (ErrParseURLStatus status)))
          else if String.eqb content EmptyString then
            Returned (mkFeedResult url None (Some ErrParseURLMissingContentType))
          else if isMimeType content MimeTypesRSS then
            let '(feed, err) := newFeedFromBytes KindRSS body in finish url feed err
          else if isMimeType content MimeTypesAtom then
            let '(feed, err) := newFeedFromBytes KindAtom body in finish url feed err
          else if isMimeType content MimeTypesIndeterminate then
            if contains body "<feed" then sniffed url KindAtom "atom" body
            else if contains body "<rss" then sniffed url KindRSS "rss" body
            else finish url None None
          else if isMimeType content MimeTypesJSONFeed then
            let '(feed, err) := newFeedFromBytes KindJSONFeed body in finish url feed err
          else if isMimeType content MimeTypesHTML then
            match discover url (tokenize body) with
            | DPanic => Panicked
            | DOk newURL =>
                if negb (String.eqb newURL EmptyString) then parseFeedURL fuel' newURL
                else finish url None (Some (ErrParseURLUnsupported content))
            | DErr _ _ => finish url None (Some (ErrParseURLUnsupported content))
            end
          else finish url None (Some (ErrParseURLUnsupported content))
      end
  end.

End Pipeline.

(* ------------------------------------------------------------------------- *)
(** * Atom person constructs and feed validation *)

(** [atom.PersonConstruct]: the [Name] element value and the optional
    [Email] and [URI] elements' values. *)
Record PersonConstruct := mkPerson
  { Name : string; Email : option string; URI : option string }.

(** [PersonConstruct.String] of atom/atom.go. *)
Definition PersonConstruct_String (p : PersonConstruct) : string :=
  Name p
  ++ match Email p with
     | Some e => if String.eqb e EmptyString then EmptyString else " (" ++ e ++ ")"
     | None => EmptyString
     end
  ++ match URI p with
     | Some u => if String.eqb u EmptyString then EmptyString else " " ++ u
     | None => EmptyString
     end.

(** [atom.Entry] through its authors: the [author] elements and the optional
    [dc:creator] element (its string form). *)
Record Entry := mkEntry { EntryAuthors : list PersonConstruct; EntryDCCreator : option string }.

(** [atom.Feed] through its authors and entries. *)
Record AtomFeed := mkAtomFeed
  { Authors : list PersonConstruct; DCCreator : option string; Entries : list Entry }.

Definition dc_creator_list (c : option string) : list string :=
  match c with Some s => [s] | None => [] end.

(** [Entry.GetAuthors]. *)
Definition Entry_GetAuthors (e : Entry) : list string :=
  map PersonConstruct_String (EntryAuthors e) ++ dc_creator_list (EntryDCCreator e).

(** [Feed.GetAuthors]. *)
Definition AtomFeed_GetAuthors (f : AtomFeed) : list string :=
  map PersonConstruct_String (Authors f) ++ dc_creator_list (DCCreator f).

Inductive AtomError :=
| ErrFeedAuthors                 (* "%w: must have at least one author or all entries with authors" *)
| ErrFeedStruct (msg : string).  (* "feed validation failed: %w" *)

Section AtomValidate.

(** [validation.Validate.Struct(f)], the struct-tag validator. *)
Variable struct_validate : AtomFeed -> option string.

(** [Feed.Validate] of the atom package (src/unnamed/part_000). *)
Definition AtomFeed_Validate (f : AtomFeed) : option AtomError :=
  let missingEntryAuthors :=
    existsb (fun e => Nat.eqb (length (Entry_GetAuthors e)) 0) (Entries f) in
  if Nat.eqb (length (AtomFeed_GetAuthors f)) 0 && missingEntryAuthors
  then Some ErrFeedAuthors
  else match struct_validate f with
       | Some msg => Some (ErrFeedStruct msg)
       | None => None
       end.

End AtomValidate.

(* ------------------------------------------------------------------------- *)
(** * Dates *)

(** [time.Unix(0, 0)]. *)
Definition UnixEpoch : Z := 0%Z.

(** [rss.Item] through its optional [pubDate]. *)
Record RSSItem := mkRSSItem { PubDate : option Z }.

(** [Item.GetPublishedDate] of rss/item.go. *)
Definition RSSItem_GetPublishedDate (i : RSSItem) : Z :=
  match PubDate i with Some t => t | None => UnixEpoch end.

(** [Item.GetUpdatedDate] of rss/item.go. *)
Definition RSSItem_GetUpdatedDate (i : RSSItem) : Z := RSSItem_GetPublishedDate i.

(** [jsonfeed.Item] through its optional [date_published] and
    [date_modified]. *)
Record JSONItem := mkJSONItem { DatePublished : option Z; DateModified : option Z }.

(** [Item.GetUpdatedDate] of the jsonfeed package. *)
Definition JSONItem_GetUpdatedDate (i : JSONItem) : Z :=
  match DateModified i with Some t => t | None => UnixEpoch end.

(** [jsonfeed.Feed] through its items. *)
Record JSONFeed := mkJSONFeed { Items : list JSONItem }.

(** [Feed.GetUpdatedDate] of the jsonfeed package: the loop keeps
    [modified] and replaces it when an item's date is [After] it. *)
Definition JSONFeed_GetUpdatedDate (f : JSONFeed) : Z :=
  fold_left (fun modified item =>
               if (modified <? JSONItem_GetUpdatedDate item)%Z
               then JSONItem_GetUpdatedDate item else modified)
            (Items f) UnixEpoch.

(* ------------------------------------------------------------------------- *)
(** * Sanitization (sanitization/sanitization.go) *)

(** The double-quote character. *)
Definition dquote : ascii := ascii_of_nat 34.

(** [unicode.IsSpace] on a single byte below [utf8.RuneSelf]: tab,
    newline, vertical tab, form feed, carriage return and space. *)
Definition is_space (c : ascii) : bool :=
  let n := nat_of_ascii c in ((9 <=? n) && (n <=? 13))%nat || (n =? 32)%nat.

(** The UTF-8 encodings of the other runes [unicode.IsSpace] accepts: U+0085
    and U+00A0 in two bytes; U+1680, U+2000 to U+200A, U+2028, U+2029,
    U+202F, U+205F and U+3000 in three. *)
Definition is_space2 (c d : ascii) : bool :=
  (nat_of_ascii c =? 194)%nat && ((nat_of_ascii d =? 133) || (nat_of_ascii d =? 160))%nat.

Definition is_space3 (c d e : ascii) : bool :=
  let c := nat_of_ascii c in
  let d := nat_of_ascii d in
  let e := nat_of_ascii e in
  ((c =? 225) && (d =? 154) && (e =? 128)
   || (c =? 226) && (d =? 128)
      && ((128 <=? e) && (e <=? 138) || (e =? 168) || (e =? 169) || (e =? 175))
   || (c =? 226) && (d =? 129) && (e =? 159)
   || (c =? 227) && (d =? 128) && (e =? 128))%nat.

Section TrimLead.

(** The tests for a two- and a three-byte white-space sequence at the front
    of the bytes; [trim_right] passes them reversed. *)
Variable sp2 : ascii -> ascii -> bool.
Variable sp3 : ascii -> ascii -> ascii -> bool.

(** The loop of [strings.TrimLeftFunc(s, unicode.IsSpace)]: the first rune
    is decoded and dropped while it is white space.  A byte sequence that is
    not a white-space encoding decodes to a rune that is not white space
    (a letter, or [utf8.RuneError] for invalid UTF-8), which stops it. *)
Fixpoint trim_lead (l : list ascii) : list ascii :=
  match l with
  | [] => []
  | c :: rest =>
      if is_space c then trim_lead rest
      else match rest with
           | d :: rest2 =>
               if sp2 c d then trim_lead rest2
               else match rest2 with
                    | e :: rest3 => if sp3 c d e then trim_lead rest3 else l
                    | [] => l
                    end
           | [] => l
           end
  end.

(** Whether the bytes start with a white-space encoding. *)
Definition starts_space (l : list ascii) : bool :=
  match l with
  | c :: d :: e :: _ => is_space c || sp2 c d || sp3 c d e
  | [c; d] => is_space c || sp2 c d
  | [c] => is_space c
  | [] => false
  end.

End TrimLead.

Definition trim_left (l : list ascii) : list ascii := trim_lead is_space2 is_space3 l.

(** [strings.TrimRightFunc(s, unicode.IsSpace)]: [utf8.DecodeLastRuneInString]
    decodes the last rune from its start byte, so the bytes are trimmed
    while they end with a white-space encoding; the model runs [trim_lead]
    on the reversed bytes with the encodings reversed. *)
Definition trim_right (l : list ascii) : list ascii :=
  rev (trim_lead (fun d c => is_space2 c d) (fun e d c => is_space3 c d e) (rev l)).

(** [strings.TrimSpace]: the ASCII fast path of the code trims the same
    bytes as [unicode.IsSpace], and a byte from [utf8.RuneSelf] up hands
    the rest to [TrimFunc] and [TrimRightFunc]. *)
Definition TrimSpace (s : string) : string :=
  string_of_list_ascii (trim_right (trim_left (list_ascii_of_string s))).

(** [html.UnescapeString] on the entities [html.EscapeString] produces
    ([&lt;], [&gt;], [&amp;], [&#39;], [&#34;]) and [&quot;]; any other
    character is copied. *)
Fixpoint UnescapeString (s : string) : string :=
  match s with
  | EmptyString => EmptyString
  | String "&" (String "l" (String "t" (String ";" rest))) => String "<" (UnescapeString rest)
  | String "&" (String "g" (String "t" (String ";" rest))) => String ">" (UnescapeString rest)
  | String "&" (String "a" (String "m" (String "p" (String ";" rest)))) =>
      String "&" (UnescapeString rest)
  | String "&" (String "q" (String "u" (String "o" (String "t" (String ";" rest))))) =>
      String dquote (UnescapeString rest)
  | String "&" (String "#" (String "3" (String "9" (String ";" rest)))) =>
      String "'" (UnescapeString rest)
  | String "&" (String "#" (String "3" (String "4" (String ";" rest)))) =>
      String dquote (UnescapeString rest)
  | String c rest => String c (UnescapeString rest)
  end.

Section Sanitize.

(** [bluemonday.UGCPolicy().Sanitize]. *)
Variable policy_Sanitize : string -> string.

(** [SanitizeString(str)] with the default policy. *)
Definition SanitizeString (str : string) : string :=
  TrimSpace (UnescapeString (policy_Sanitize str)).

End Sanitize.

(** [html.EscapeString], which the policy applies to text tokens. *)
Fixpoint EscapeString (s : string) : string :=
  match s with
  | EmptyString => EmptyString
  | String c rest =>
      (if Ascii.eqb c "<" then "&lt;"
       else if Ascii.eqb c ">" then "&gt;"
       else if Ascii.eqb c "&" then "&amp;"
       else if Ascii.eqb c "'" then "&#39;"
       else if Ascii.eqb c dquote then "&#34;"
       else String c EmptyString) ++ EscapeString rest
  end.

(** A model of [bluemonday.UGCPolicy().Sanitize] on tag-and-text input:
    each text run is tokenized (entities decoded) and re-escaped; a start or
    end tag whose name the UGC policy allows is written back (without its
    attributes), any other tag is dropped.  Script and style contents,
    comments and attribute filtering are outside this model. *)
Module UGC.

Definition is_letter (c : ascii) : bool :=
  let n := nat_of_ascii c in ((65 <=? n) && (n <=? 90))%nat || ((97 <=? n) && (n <=? 122))%nat.

Definition allowed : list string :=
  ["a"; "b"; "i"; "p"; "em"; "strong"; "code"; "pre"; "blockquote";
   "ul"; "ol"; "li"; "br"; "h1"; "h2"; "h3"; "table"; "tr"; "td"].

Fixpoint tag_name (s : string) : string :=
  match s with
  | EmptyString => EmptyString
  | String c rest =>
      if Ascii.eqb c " " || Ascii.eqb c "/" then EmptyString else String c (tag_name rest)
  end.

(** The inside of [<...>]. *)
Definition emit_tag (content : string) : string :=
  match content with
  | String "/" rest =>
      let n := tag_name rest in
      if slices_contains allowed n then "</" ++ n ++ ">" else EmptyString
  | _ =>
      let n := tag_name content in
      if slices_contains allowed n then "<" ++ n ++ ">" else EmptyString
  end.

Definition emit_text (t : string) : string := EscapeString (UnescapeString t).

Definition starts_tag (rest : string) : bool :=
  match rest with
  | String d _ => is_letter d || Ascii.eqb d "/"
  | EmptyString => false
  end.

Fixpoint go (in_tag : bool) (acc s : string) : string :=
  match s with
  | EmptyString => if in_tag then emit_text ("<" ++ acc) else emit_text acc
  | String c rest =>
      if in_tag then
        if Ascii.eqb c ">" then emit_tag acc ++ go false EmptyString rest
        else go true (acc ++ String c EmptyString) rest
      else if Ascii.eqb c "<" && starts_tag rest then emit_text acc ++ go true EmptyString rest
      else go false (acc ++ String c EmptyString) rest
  end.

Definition sanitize (s : string) : string := go false EmptyString s.

End UGC.

(* ------------------------------------------------------------------------- *)
(** * Date parsing and durations (types/dates.go) *)

(** The zero [time.Time], January 1 of year 1, 00:00:00 UTC, in nanoseconds
    relative to the Unix epoch. *)
Definition ZeroTime : Z := (-62135596800 * 10 ^ 9)%Z.

(** [DateTimeFormats], the layout constants of the [time] package spelled
    out. *)
Definition DateTimeFormats : list string :=
  [ "Mon, 02 Jan 2006 15:04:05 -0700";  (* time.RFC1123Z *)
    "Mon, 02 Jan 2006 15:04:05 MST";    (* time.RFC1123 *)
    "Mon, 2 Jan 2006 15:04:05 -0700";
    "Mon, 2 Jan 2006 15:04:05 MST";
    "Mon, 02 Jan 2006 15:04 -0700";
    "Mon, 02 Jan 2006 15:04 MST";
    "Mon, 2 Jan 2006 15:04 -0700";
    "Mon, 2 Jan 2006 15:04 MST";
    "2006-01-02T15:04:05Z07:00";        (* time.RFC3339 *)
    "2006-01-02T15:04:05.00Z07:00";
    "2006-01-02 15:04:05";              (* time.DateTime *)
    "2006-01-02";                       (* time.DateOnly *)
    "2006-01-02T15:04-07:00";
    "2006-01";
    "2006";
    "Jan 2, 2006";
    "2006 Jan 2 15:04:05 MST";
    "Mon, 2 Jan 2006" ].

(** [ErrInvalidDateTimeFormat], with the detail the code wraps it in. *)
Inductive DateError := ErrInvalidDateTimeFormat (detail : string).

Section Dates.

(** [time.Parse(layout, value)]: the instant, or [None] on error. *)
Variable time_Parse : string -> string -> option Z.

(** One iteration of the loop of [tryFormats]: the loop variable [data] is
    trimmed again and parsed with the layout; a parse error continues. *)
Definition try_format (st : string * Z) (format : string) : string * Z :=
  let data := TrimSpace (fst st) in
  match time_Parse format data with
  | None => (data, snd st)
  | Some value => (data, value)
  end.

(** [tryFormats]: the time and the error it returns. *)
Definition tryFormats (data : string) : Z * option DateError :=
  (snd (fold_left try_format DateTimeFormats (data, ZeroTime)), None).

(** [DateTime.UnmarshalText] on a [DateTime] holding [d]: the value it holds
    afterwards and the returned error. *)
Definition DateTime_UnmarshalText (d : Z) (data : string) : Z * option DateError :=
  let '(parsed, err) := tryFormats data in
  match err with
  | Some e => (d, Some e)
  | None => (parsed, None)
  end.

End Dates.

(** [DateTime.Valid]. *)
Definition DateTime_Valid (d : Z) : bool * option DateError :=
  if Z.eqb d ZeroTime then (false, Some (ErrInvalidDateTimeFormat "is zero time value"))
  else if Z.eqb d UnixEpoch then (false, Some (ErrInvalidDateTimeFormat "is unix epoch"))
  else (true, None).

(** [int64] bounds and two's-complement wrap-around ([time.Duration] is an
    [int64] count of nanoseconds). *)
Definition int64_min : Z := (- 2 ^ 63)%Z.
Definition int64_max : Z := (2 ^ 63 - 1)%Z.
Definition wrap64 (x : Z) : Z := ((x + 2 ^ 63) mod 2 ^ 64 - 2 ^ 63)%Z.

(** [slices.Sort] on a [[]time.Duration]: ascending order.  Integers that
    compare equal are identical, so every sorting algorithm gives the same
    slice; the model sorts by insertion. *)
Fixpoint insert_sorted (x : Z) (l : list Z) : list Z :=
  match l with
  | [] => [x]
  | y :: r => if (x <=? y)%Z then x :: l else y :: insert_sorted x r
  end.

Definition slices_Sort (l : list Z) : list Z := fold_right insert_sorted [] l.

(** [GetMedianInterval]: integer [/] truncates ([Z.quot]) and the sum of the
    two middle values wraps around. *)
Definition GetMedianInterval (data : list Z) : Z :=
  let dataCopy := slices_Sort data in
  let l := length dataCopy in
  if Nat.eqb l 0 then 0%Z
  else if Nat.eqb (Nat.modulo l 2) 0 then
    Z.quot (wrap64 (nth (l / 2 - 1) dataCopy 0%Z + nth (l / 2) dataCopy 0%Z)) 2
  else nth (l / 2) dataCopy 0%Z.

(** [time.Second] and [time.Minute], in nanoseconds. *)
Definition Second : Z := (10 ^ 9)%Z.
Definition Minute : Z := (60 * Second)%Z.

(** [t.Sub(u)]: the difference in nanoseconds, saturated to the
    [time.Duration] range. *)
Definition time_Sub (t u : Z) : Z :=
  let d := (t - u)%Z in
  if (int64_max <? d)%Z then int64_max
  else if (d <? int64_min)%Z then int64_min
  else d.

(* ------------------------------------------------------------------------- *)
(** * JSONFeed feed accessors (src/unnamed/part_002) *)

(** The loop of [Feed.GetUpdateInterval] over consecutive items.  The code
    compares [time.Time] values with [!=], which also compares locations;
    the model compares instants.  The two agree on an item without
    [date_modified], which yields [time.Unix(0, 0)] itself, and on every
    item dated at another instant; they differ only on an item dated at the
    epoch in another location, which [!=] counts as dated. *)
Fixpoint update_intervals (items : list JSONItem) : list Z :=
  match items with
  | a :: ((b :: _) as rest) =>
      if negb (Z.eqb (JSONItem_GetUpdatedDate a) UnixEpoch)
         && negb (Z.eqb (JSONItem_GetUpdatedDate b) UnixEpoch)
      then time_Sub (JSONItem_GetUpdatedDate a) (JSONItem_GetUpdatedDate b)
             :: update_intervals rest
      else update_intervals rest
  | _ => []
  end.

(** [Feed.GetUpdateInterval] of the jsonfeed package. *)
Definition JSONFeed_GetUpdateInterval (f : JSONFeed) : Z :=
  let items := Items f in
  if (2 <? length items)%nat then
    let intervals := update_intervals items in
    if (0 <? length intervals)%nat then GetMedianInterval intervals else (5 * Minute)%Z
  else (5 * Minute)%Z.

(** [types.ImageInfo]: its URL and optional title. *)
Record ImageInfo := mkImageInfo { ImageURL : string; ImageTitle : option string }.

(** [ImageInfo.GetURL] of the MIT-licensed types package that the MIT
    jsonfeed package calls (src/unnamed/part_017, lines 52-54): it reads
    [i.URL], so on a nil pointer it panics, modelled by [None]. *)
Definition ImageInfo_GetURL (i : option ImageInfo) : option string :=
  match i with Some i => Some (ImageURL i) | None => None end.

(** [jsonfeed.Feed] through its [icon] and [favicon] fields. *)
Record JSONFeedIcons := mkJSONFeedIcons { Icon : option string; Favicon : option string }.

(** [Feed.GetImage] of the jsonfeed package: the image it builds sets only
    the URL, its title is left unset. *)
Definition JSONFeed_GetImage (f : JSONFeedIcons) : option ImageInfo :=
  let url := match Icon f, Favicon f with
             | Some icon, _ => icon
             | None, Some favicon => favicon
             | None, None => EmptyString
             end in
  if negb (String.eqb url EmptyString) then Some (mkImageInfo url None) else None.

(** [Feed.SetImage] of the jsonfeed package: the feed after the call, or
    [None] when [image.GetURL()] panics. *)
Definition JSONFeed_SetImage (f : JSONFeedIcons) (image : option ImageInfo)
  : option JSONFeedIcons :=
  match ImageInfo_GetURL image with
  | Some url => Some (mkJSONFeedIcons (Some url) (Favicon f))
  | None => None
  end.

(* ------------------------------------------------------------------------- *)
(** * Atom links and categories (src/unnamed/part_000, atom/atom.go) *)

(** [atom.Link]: [href], [rel], [type] and the element's content. *)
Record Link := mkLink
  { Href : string; Rel : string; LinkType : string; LinkContent : option string }.

Section AtomLinks.

(** [LinkRelSelf], a constant declared outside src/. *)
Variable LinkRelSelf : string.

(** The two tests of the loop of the atom [Feed.GetSourceURL]. *)
Definition is_source_link (link : Link) : bool :=
  (negb (String.eqb (Rel link) EmptyString) && String.eqb (Rel link) LinkRelSelf)
  && (negb (String.eqb (LinkType link) EmptyString)
      && slices_contains MimeTypesAtom (LinkType link)).

(** [Feed.GetSourceURL] of the atom package, on the feed's links. *)
Definition AtomFeed_GetSourceURL (links : list Link) : string :=
  match find is_source_link links with
  | Some link => Href link
  | None => EmptyString
  end.

(** [Feed.SetSourceURL] of the atom package: a link is appended. *)
Definition AtomFeed_SetSourceURL (links : list Link) (url : string) : list Link :=
  links ++ [mkLink url LinkRelSelf (hd EmptyString MimeTypesAtom) None].

End AtomLinks.

(** [atom.Category]: the optional [label] attribute's value, the optional
    element content and the [term] attribute's value. *)
Record Category := mkCategory
  { Label : option string; CategoryContent : option string; Term : string }.

Section AtomCategory.

Variable policy_Sanitize : string -> string.

(** [Category.String]. *)
Definition Category_String (c : Category) : string :=
  let rest := match CategoryContent c with
              | Some v => SanitizeString policy_Sanitize v
              | None => SanitizeString policy_Sanitize (Term c)
              end in
  match Label c with
  | Some label =>
      if negb (String.eqb label EmptyString) then SanitizeString policy_Sanitize label else rest
  | None => rest
  end.

End AtomCategory.

(* ------------------------------------------------------------------------- *)
(** * RSS items: validation and images (rss/item.go, extensions/media) *)

(** [MimeTypesImage]. *)
Definition MimeTypesImage : list string :=
  ["image/avif"; "image/gif"; "image/jpeg"; "image/png"; "image/svg+xml"; "image/webp"].

(** [types.IsImage]: some image media type occurs in [mimetype]. *)
Definition IsImage (mimetype : string) : bool :=
  existsb (fun v => contains mimetype v) MimeTypesImage.

Record RSSImage := mkRSSImage { RSSImageLink : string; RSSImageTitle : string }.
Record Enclosure := mkEnclosure { EnclosureURL : string; EnclosureType : string }.
Record MediaContent := mkMediaContent { Medium : string; MediaURL : string; MediaType : string }.
Record MediaThumbnail := mkMediaThumbnail { ThumbnailURL : string }.

(** [rss.Item] through [title], [description] (stored values of
    [types.String]) and its image-bearing elements. *)
Record RSSItemBody := mkRSSItemBody
  { ItemTitle : string; ItemDescription : string; ItemImage : option RSSImage;
    ItemEnclosure : option Enclosure; ItemMediaContent : option MediaContent;
    ItemMediaThumbnails : list MediaThumbnail }.

Inductive ItemError := ErrItemValidation (detail : string).

(** [Item.Validate] of rss/item.go; [types.String.String] is
    [html.UnescapeString]. *)
Definition RSSItem_Validate (i : RSSItemBody) : option ItemError :=
  if String.eqb (UnescapeString (ItemDescription i)) EmptyString
     && String.eqb (UnescapeString (ItemTitle i)) EmptyString
  then Some (ErrItemValidation "description or title is required")
  else None.

(** [MediaThumbnail.AsImage]. *)
Definition MediaThumbnail_AsImage (t : MediaThumbnail) : ImageInfo :=
  mkImageInfo (ThumbnailURL t) None.

Section RSSImages.

(** [MediaContentMediumImage], a constant declared outside src/. *)
Variable MediaContentMediumImage : string.

(** [MediaContent.IsImage]. *)
Definition MediaContent_IsImage (c : MediaContent) : bool * option ImageInfo :=
  if String.eqb (Medium c) MediaContentMediumImage then (true, Some (mkImageInfo (MediaURL c) None))
  else if IsImage (MediaType c) then (true, Some (mkImageInfo (MediaURL c) None))
  else (false, None).

(** The [media:content] and [media:thumbnail] cases of [Item.GetImage]. *)
Definition media_image (i : RSSItemBody) : option ImageInfo :=
  match ItemMediaContent i with
  | Some c => let '(isImage, image) := MediaContent_IsImage c in if isImage then image else None
  | None =>
      match ItemMediaThumbnails i with
      | t :: _ => Some (MediaThumbnail_AsImage t)
      | [] => None
      end
  end.

(** [Item.GetImage] of rss/item.go. *)
Definition RSSItem_GetImage (i : RSSItemBody) : option ImageInfo :=
  match ItemImage i with
  | Some im => Some (mkImageInfo (RSSImageLink im) (Some (RSSImageTitle im)))
  | None =>
      match ItemEnclosure i with
      | Some e =>
          if IsImage (EnclosureType e) then Some (mkImageInfo (EnclosureURL e) None)
          else media_image i
      | None => media_image i
      end
  end.

End RSSImages.

(* ------------------------------------------------------------------------- *)
(** * Items of several URLs ([NewItemsFromURLs], parser.go) *)

Section ItemsFromURLs.

(** The item type and [FeedSource.GetItems]. *)
Variable Item : Type.
Variable GetItems : FeedSource -> list Item.

(** [FeedItemsResult]. *)
Record FeedItemsResult := mkFeedItemsResult
  { ItemsURL : string; ItemsOf : list Item; ItemsErr : option Error }.

Inductive ItemsOutcome :=
| ItemsReturned (r : FeedItemsResult)
| ItemsPanicked
| ItemsOutOfFuel.

(** The body of the worker goroutine for one URL, given the outcome of
    [parseFeedURL]; [result.Feed.GetItems()] on a nil [Feed] panics. *)
Definition feed_items_result (url : string) (o : ParseOutcome) : ItemsOutcome :=
  match o with
  | Returned result =>
      match Err_of result with
      | Some e => ItemsReturned (mkFeedItemsResult url [] (Some e))
      | None =>
          match Feed_of result with
          | Some feed => ItemsReturned (mkFeedItemsResult url (GetItems (FeedSource_of feed)) None)
          | None => ItemsPanicked
          end
      end
  | Panicked => ItemsPanicked
  | OutOfFuel => ItemsOutOfFuel
  end.

End ItemsFromURLs.

(* ------------------------------------------------------------------------- *)
(** * Concrete behaviours of the outside libraries, for the examples *)

Module Ex.

(** A decoder that accepts every body and leaves the source URL empty. *)
Definition decode_any (_ : FeedKind) (body : string) : option Doc := Some (mkDoc EmptyString body).
(** A validator reporting a missing channel title, and one accepting all. *)
Definition no_title_msg : string :=
  "Key: 'RSS.Channel.Title' Error:Field validation for 'Title' failed on the 'required' tag".
Definition validate_no_title (_ : FeedSource) : option string := Some no_title_msg.
Definition validate_ok (_ : FeedSource) : option string := None.

(** [mime.ParseMediaType] on a bare media type. *)
Definition parse_media_type (s : string) : option string := Some s.

(** A URL library on strings: absolute URLs start with a scheme. *)
Definition url_Parse (s : string) : option string := Some s.
Definition url_IsAbs (u : string) : bool :=
  String.prefix "http://" u || String.prefix "https://" u.
Definition url_Path (u : string) : string := u.
Definition url_SetPath (page p : string) : string := "https://example.com" ++ p.
Definition url_String (u : string) : string := u.
Definition url_JoinPath (base p : string) : option string :=
  Some (if String.prefix "/" p then p else base ++ p).

Definition tokenize (_ : string) : list Token := [].

Definition rss_body : string := "<rss version='2.0'><channel></channel></rss>".

End Ex.

(* ------------------------------------------------------------------------- *)
(** * String lemmas *)

Lemma string_app_nil_r (s : string) : s ++ EmptyString = s.
Proof. induction s as [|c s IH]; simpl; [reflexivity | now rewrite IH]. Qed.

Lemma string_app_assoc (a b c : string) : a ++ (b ++ c) = (a ++ b) ++ c.
Proof. induction a as [|x a IH]; simpl; [reflexivity | now rewrite IH]. Qed.

(* ------------------------------------------------------------------------- *)
(** * Decoding and tagging *)

(** Per-kind tagging as [NewFeedFromSource] and [NewFeedFromBytes] do it. *)
Lemma parseSource_source_of (k : FeedKind) (d : Doc) :
  parseSource (source_of k d) =
  match k with KindRSS => TypeRSS | KindAtom => TypeAtom | KindJSONFeed => SourceTypeEmpty end.
Proof. destruct k; reflexivity. Qed.

(** C1 (amended): when the bytes decode but [Validate] fails,
    [NewFeedFromBytes] returns a nil [*Feed] together with the
    [ErrParseBytes] "feed is not valid" error; the decoded value is
    dropped. *)
Theorem NewFeedFromBytes_invalid_nil (decode : FeedKind -> string -> option Doc)
  (validate : FeedSource -> option string) (k : FeedKind) (data : string) (d : Doc) (v : string)
  (Hdecode : decode k data = Some d) (Hinvalid : validate (source_of k d) = Some v) :
  NewFeedFromBytes decode validate k data = (None, Some (ErrParseBytesInvalid v)).
Proof. unfold NewFeedFromBytes. rewrite Hdecode. simpl. rewrite Hinvalid. reflexivity. Qed.

Lemma NewFeedFromBytes_invalid_nil_witness :
  Ex.decode_any KindRSS Ex.rss_body = Some (mkDoc EmptyString Ex.rss_body) /\
  NewFeedFromBytes Ex.decode_any Ex.validate_no_title KindRSS Ex.rss_body =
    (None, Some (ErrParseBytesInvalid Ex.no_title_msg)).
Proof.
  split; [reflexivity |].
  apply (NewFeedFromBytes_invalid_nil Ex.decode_any Ex.validate_no_title KindRSS Ex.rss_body
           (mkDoc EmptyString Ex.rss_body)); reflexivity.
Defined.

(** C1 counterexample: an RSS document that decodes but fails validation
    (no channel title) yields no [*Feed] from [NewFeedFromBytes]. *)
Lemma NewFeedFromBytes_invalid_no_feed :
  Ex.decode_any KindRSS Ex.rss_body <> None /\
  Ex.validate_no_title (SrcRSS (mkDoc EmptyString Ex.rss_body)) <> None /\
  fst (NewFeedFromBytes Ex.decode_any Ex.validate_no_title KindRSS Ex.rss_body) = None.
Proof. split; [discriminate | split; [discriminate | reflexivity]]. Qed.

(** C4: a [*jsonfeed.Feed] that decodes and validates is wrapped with the
    empty [SourceType] (the default case of [parseSource]), not
    [TypeJSONFeed]; [NewFeedFromSource] tags it the same way. *)
Theorem NewFeedFromBytes_jsonfeed_untagged (decode : FeedKind -> string -> option Doc)
  (validate : FeedSource -> option string) (data : string) (d : Doc)
  (Hdecode : decode KindJSONFeed data = Some d) (Hvalid : validate (SrcJSONFeed d) = None) :
  NewFeedFromBytes decode validate KindJSONFeed data =
    (Some {| FeedSource_of := SrcJSONFeed d; SourceType_of := SourceTypeEmpty |}, None) /\
  SourceType_of (NewFeedFromSource (SrcJSONFeed d)) = SourceTypeEmpty.
Proof.
  split; [| reflexivity].
  unfold NewFeedFromBytes. rewrite Hdecode. simpl. rewrite Hvalid. reflexivity.
Qed.

Lemma NewFeedFromBytes_jsonfeed_untagged_witness :
  NewFeedFromBytes Ex.decode_any Ex.validate_ok KindJSONFeed "{}" =
    (Some {| FeedSource_of := SrcJSONFeed (mkDoc EmptyString "{}");
             SourceType_of := SourceTypeEmpty |}, None) /\
  SourceType_of (NewFeedFromSource (SrcJSONFeed (mkDoc EmptyString "{}"))) = SourceTypeEmpty.
Proof.
  apply (NewFeedFromBytes_jsonfeed_untagged Ex.decode_any Ex.validate_ok "{}"
           (mkDoc EmptyString "{}")); reflexivity.
Defined.

(* ------------------------------------------------------------------------- *)
(** * The per-URL pipeline *)

(** A [FeedResult] with exactly one of [Feed] and [Err] set. *)
Definition exclusive (r : FeedResult) : Prop := Feed_of r = None <-> Err_of r <> None.

Lemma finish_exclusive (url : string) (feed : option Feed) (err : option Error) (r : FeedResult) :
  finish url feed err = Returned r -> exclusive r.
Proof.
  unfold finish, exclusive.
  destruct err as [e|].
  - intros [= <-]. simpl. split; intros; congruence.
  - destruct feed as [f|]; [intros [= <-]; simpl; split; intros; congruence | discriminate].
Qed.

Section PipelineFacts.

Context (decode : FeedKind -> string -> option Doc) (validate : FeedSource -> option string)
  (fetch : string -> Response) (ParseMediaType : string -> option string)
  (tokenize : string -> list Token) (URL : Type) (url_Parse : string -> option URL)
  (url_IsAbs : URL -> bool) (url_Path : URL -> string) (url_SetPath : URL -> string -> URL)
  (url_String : URL -> string) (url_JoinPath : string -> string -> option string).

Let parse := parseFeedURL decode validate fetch ParseMediaType tokenize URL url_Parse url_IsAbs
  url_Path url_SetPath url_String url_JoinPath.

Lemma sniffed_exclusive (url : string) (k : FeedKind) (format body : string) (r : FeedResult) :
  sniffed decode validate url k format body = Returned r -> exclusive r.
Proof.
  unfold sniffed. destruct (NewFeedFromBytes decode validate k body) as [feed [e|]].
  - cbn [is_invalid_validation_error]. apply finish_exclusive.
  - apply finish_exclusive.
Qed.

(** Every [FeedResult] the pipeline returns carries exactly one of a feed and
    an error. *)
Lemma parseFeedURL_exclusive (fuel : nat) :
  forall (url : string) (r : FeedResult), parse fuel url = Returned r -> exclusive r.
Proof.
  unfold parse. induction fuel as [|fuel IH]; intros url r H; cbn [parseFeedURL] in H.
  - discriminate.
  - destruct (fetch url) as [|code status content body].
    + injection H as <-. unfold exclusive. simpl. split; intros; congruence.
    + repeat match type of H with
             | Returned _ = Returned _ =>
                 injection H as <-; unfold exclusive; simpl; split; intros; congruence
             | finish _ _ _ = _ => exact (finish_exclusive _ _ _ _ H)
             | sniffed _ _ _ _ _ _ = _ => exact (sniffed_exclusive _ _ _ _ _ H)
             | parseFeedURL _ _ _ _ _ _ _ _ _ _ _ _ _ _ = _ => exact (IH _ _ H)
             | Panicked = _ => discriminate H
             | context [if ?b then _ else _] => destruct b
             | context [let '(_, _) := ?p in _] => destruct p
             | context [match ?x with DOk _ => _ | DErr _ _ => _ | DPanic => _ end] => destruct x
             end.
Qed.

(** C2: for an ambiguous media type ([application/xml], [text/xml]) and a
    body containing neither [<feed] nor [<rss], the inner switch has no
    default case: [feed] and [err] stay nil, and [feed.GetSourceURL()]
    dereferences the nil [*Feed].  No [FeedResult] is returned. *)
Theorem parseFeedURL_ambiguous_unsniffed_panics (fuel : nat) (url : string) (code : Z)
  (status content body mediatype : string)
  (Hfetch : fetch url = Resp code status content body) (Hstatus : IsError code = false)
  (Hcontent : content <> EmptyString) (Hmedia : ParseMediaType content = Some mediatype)
  (Hambiguous : In mediatype MimeTypesIndeterminate)
  (Hnofeed : contains body "<feed" = false) (Hnorss : contains body "<rss" = false) :
  parse (S fuel) url = Panicked.
Proof.
  unfold parse. cbn [parseFeedURL]. rewrite Hfetch, Hstatus.
  destruct (String.eqb_spec content EmptyString) as [E|_]; [contradiction|].
  unfold isMimeType. rewrite Hmedia.
  destruct Hambiguous as [<-|[<-|[]]]; cbn; rewrite Hnofeed, Hnorss; reflexivity.
Qed.

(** C5: a response whose status is an error yields a [FeedResult] whose
    [URL] is the empty string, not the requested URL. *)
Theorem parseFeedURL_status_error_drops_url (fuel : nat) (url : string) (code : Z)
  (status content body : string)
  (Hfetch : fetch url = Resp code status content body) (Hstatus : IsError code = true) :
  parse (S fuel) url = Returned (mkFeedResult EmptyString None (Some (ErrParseURLStatus status))).
Proof. unfold parse. cbn [parseFeedURL]. rewrite Hfetch, Hstatus. reflexivity. Qed.

End PipelineFacts.

Module ExPipeline.

Definition url : string := "https://example.com/feed.xml".
Definition html_body : string := "<html><body>no feed here</body></html>".
Definition fetch_xml (_ : string) : Response := Resp 200 "200 OK" "application/xml" html_body.
Definition fetch_500 (_ : string) : Response :=
  Resp 500 "500 Internal Server Error" "text/html" html_body.

End ExPipeline.

Lemma parseFeedURL_ambiguous_unsniffed_panics_witness :
  parseFeedURL Ex.decode_any Ex.validate_ok ExPipeline.fetch_xml Ex.parse_media_type Ex.tokenize
    string Ex.url_Parse Ex.url_IsAbs Ex.url_Path Ex.url_SetPath Ex.url_String Ex.url_JoinPath
    1 ExPipeline.url = Panicked.
Proof.
  apply (parseFeedURL_ambiguous_unsniffed_panics Ex.decode_any Ex.validate_ok ExPipeline.fetch_xml
           Ex.parse_media_type Ex.tokenize string Ex.url_Parse Ex.url_IsAbs Ex.url_Path
           Ex.url_SetPath Ex.url_String Ex.url_JoinPath 0 ExPipeline.url 200 "200 OK"
           "application/xml" ExPipeline.html_body "application/xml");
    try reflexivity.
  - discriminate.
  - simpl. left. reflexivity.
Defined.

Lemma parseFeedURL_status_error_drops_url_witness :
  parseFeedURL Ex.decode_any Ex.validate_ok ExPipeline.fetch_500 Ex.parse_media_type Ex.tokenize
    string Ex.url_Parse Ex.url_IsAbs Ex.url_Path Ex.url_SetPath Ex.url_String Ex.url_JoinPath
    1 ExPipeline.url =
  Returned (mkFeedResult EmptyString None (Some (ErrParseURLStatus "500 Internal Server Error"))).
Proof.
  apply (parseFeedURL_status_error_drops_url Ex.decode_any Ex.validate_ok ExPipeline.fetch_500
           Ex.parse_media_type Ex.tokenize string Ex.url_Parse Ex.url_IsAbs Ex.url_Path
           Ex.url_SetPath Ex.url_String Ex.url_JoinPath 0 ExPipeline.url 500
           "500 Internal Server Error" "text/html" ExPipeline.html_body); reflexivity.
Defined.

(* ------------------------------------------------------------------------- *)
(** * Feed URL discovery *)

Module ExHTML.

Definition href : string := "https://example.com/feed.xml".
Definition rel_alternate : Attribute := mkAttr "rel" "alternate".
Definition type_rss : Attribute := mkAttr "type" "application/rss+xml".

(** [<link href=... rel="alternate" type="application/rss+xml"/>]. *)
Definition link_href_first : Token :=
  mkToken SelfClosingTagToken "link" [mkAttr "href" href; rel_alternate; type_rss].
(** [<link rel="alternate" type="application/rss+xml" href=.../>]. *)
Definition link_href_last : Token :=
  mkToken SelfClosingTagToken "link" [rel_alternate; type_rss; mkAttr "href" href].
(** [<link rel="alternate" type="application/rss+xml"/>]. *)
Definition link_no_href : Token :=
  mkToken SelfClosingTagToken "link" [rel_alternate; type_rss].
(** [<link rel="alternate" href="https://example.com/blog/feed"/>]: no type,
    an href whose path ends in "feed". *)
Definition link_suffix_feed : Token :=
  mkToken SelfClosingTagToken "link" [rel_alternate; mkAttr "href" "https://example.com/blog/feed"].

Definition page : string := "https://example.com/".

End ExHTML.

Section DiscoveryFacts.

Context (URL : Type) (url_Parse : string -> option URL) (url_IsAbs : URL -> bool)
  (url_Path : URL -> string) (url_SetPath : URL -> string -> URL) (url_String : URL -> string)
  (url_JoinPath : string -> string -> option string).

Let discover := discoverFeedURL URL url_Parse url_IsAbs url_Path url_SetPath url_String url_JoinPath.

(** A qualifying link whose [href] comes after [rel] and [type] is used. *)
Lemma discoverFeedURL_href_last_used (page : string) (p : URL) (Hpage : url_Parse page = Some p)
  (rest : list Token) :
  discover page (ExHTML.link_href_last :: rest) =
  match url_Parse ExHTML.href with
  | None => DErr ExHTML.href DiscoverURLParse
  | Some feedURL =>
      resolve_feed_url URL url_IsAbs url_Path url_SetPath url_String url_JoinPath p feedURL
  end.
Proof. unfold discover, discoverFeedURL. rewrite Hpage. reflexivity. Qed.

(** C3: the [idx == 0] test skips a qualifying [<link>] whose [href] is its
    first attribute, and the [href] test of a link compares the whole value
    with "feed", "rss" and "atom" rather than its suffix: a document made of
    either link alone reaches the end of input with nothing found. *)
Theorem discoverFeedURL_misses_qualifying_links (page : string) (p : URL)
  (Hpage : url_Parse page = Some p) :
  discover page [ExHTML.link_href_first] = DErr EmptyString DiscoverTokenizer /\
  discover page [ExHTML.link_suffix_feed] = DErr EmptyString DiscoverTokenizer.
Proof. unfold discover, discoverFeedURL. rewrite Hpage. split; reflexivity. Qed.

(** C10: a qualifying [<link>] with no [href] attribute makes
    [slices.IndexFunc] return [-1], and [tkn.Attr[-1]] panics: the call
    neither finds a feed nor reports the end of the document. *)
Theorem discoverFeedURL_link_without_href_panics (page : string) (p : URL)
  (Hpage : url_Parse page = Some p) (rest : list Token) :
  discover page (ExHTML.link_no_href :: rest) = DPanic /\
  discover page (ExHTML.link_no_href :: rest) <> DErr EmptyString DiscoverTokenizer.
Proof.
  unfold discover, discoverFeedURL. rewrite Hpage. split; [reflexivity | discriminate].
Qed.

End DiscoveryFacts.

Lemma discoverFeedURL_misses_qualifying_links_witness :
  Ex.url_Parse ExHTML.page = Some ExHTML.page /\
  discoverFeedURL string Ex.url_Parse Ex.url_IsAbs Ex.url_Path Ex.url_SetPath Ex.url_String
    Ex.url_JoinPath ExHTML.page [ExHTML.link_href_first] = DErr EmptyString DiscoverTokenizer.
Proof.
  split; [reflexivity |].
  apply (discoverFeedURL_misses_qualifying_links string Ex.url_Parse Ex.url_IsAbs Ex.url_Path
           Ex.url_SetPath Ex.url_String Ex.url_JoinPath ExHTML.page ExHTML.page).
  reflexivity.
Defined.

Lemma discoverFeedURL_link_without_href_panics_witness :
  discoverFeedURL string Ex.url_Parse Ex.url_IsAbs Ex.url_Path Ex.url_SetPath Ex.url_String
    Ex.url_JoinPath ExHTML.page [ExHTML.link_no_href; ExHTML.link_href_last] = DPanic.
Proof.
  apply (discoverFeedURL_link_without_href_panics string Ex.url_Parse Ex.url_IsAbs Ex.url_Path
           Ex.url_SetPath Ex.url_String Ex.url_JoinPath ExHTML.page ExHTML.page).
  reflexivity.
Defined.

(* ------------------------------------------------------------------------- *)
(** * Dates *)

Lemma fold_updated_max (items : list JSONItem) (m : Z) :
  fold_left (fun modified item =>
               if (modified <? JSONItem_GetUpdatedDate item)%Z
               then JSONItem_GetUpdatedDate item else modified) items m =
  fold_left Z.max (map JSONItem_GetUpdatedDate items) m.
Proof.
  revert m. induction items as [|i items IH]; intros m; simpl; [reflexivity|].
  rewrite IH. f_equal.
  destruct (Z.ltb_spec m (JSONItem_GetUpdatedDate i)); lia.
Qed.

(** C6 (amended): an RSS item without [pubDate] and a JSONFeed item without
    [date_modified] report the epoch as their updated date; a JSONFeed's
    updated date is the maximum of the epoch and its items' updated dates,
    so it is the latest item date when that date is not before the epoch,
    and the epoch otherwise. *)
Theorem GetUpdatedDate_epoch_default :
  RSSItem_GetUpdatedDate (mkRSSItem None) = UnixEpoch /\
  (forall published, JSONItem_GetUpdatedDate (mkJSONItem published None) = UnixEpoch) /\
  (forall f, JSONFeed_GetUpdatedDate f =
             fold_right Z.max UnixEpoch (map JSONItem_GetUpdatedDate (Items f))).
Proof.
  split; [reflexivity | split; [reflexivity |]].
  intros f. unfold JSONFeed_GetUpdatedDate. rewrite fold_updated_max.
  rewrite fold_symmetric by lia. reflexivity.
Qed.

(** C6 counterexample: a JSONFeed whose only item was modified on
    1969-12-31T00:00:00Z reports the epoch, not that item's date, as the
    feed's updated date. *)
Lemma JSONFeed_GetUpdatedDate_pre_epoch :
  let f := mkJSONFeed [mkJSONItem None (Some (-86400 * 10 ^ 9)%Z)] in
  map JSONItem_GetUpdatedDate (Items f) = [(-86400 * 10 ^ 9)%Z] /\
  JSONFeed_GetUpdatedDate f = UnixEpoch /\
  JSONFeed_GetUpdatedDate f <> (-86400 * 10 ^ 9)%Z.
Proof. cbv zeta. split; [reflexivity | split; [reflexivity | vm_compute; discriminate]]. Qed.

(* ------------------------------------------------------------------------- *)
(** * Atom author rule *)

Lemma existsb_missing_authors (entries : list Entry) :
  existsb (fun e => Nat.eqb (length (Entry_GetAuthors e)) 0) entries = true <->
  exists e, In e entries /\ Entry_GetAuthors e = [].
Proof.
  rewrite existsb_exists. split.
  - intros [e [Hin He]]. exists e. split; [exact Hin|].
    apply Nat.eqb_eq, length_zero_iff_nil in He. exact He.
  - intros [e [Hin He]]. exists e. split; [exact Hin|]. rewrite He. reflexivity.
Qed.

(** C7: for an atom feed with no feed-level author, validation fails on the
    author rule whenever some entry has no author; when per-field validation
    passes, the feed validates exactly when every entry has an author. *)
Theorem AtomFeed_Validate_author_rule (struct_validate : AtomFeed -> option string)
  (f : AtomFeed) (Hno_feed_authors : AtomFeed_GetAuthors f = []) :
  ((exists e, In e (Entries f) /\ Entry_GetAuthors e = []) ->
     AtomFeed_Validate struct_validate f = Some ErrFeedAuthors) /\
  (struct_validate f = None ->
     (AtomFeed_Validate struct_validate f = None <->
      forall e, In e (Entries f) -> Entry_GetAuthors e <> [])).
Proof.
  unfold AtomFeed_Validate. rewrite Hno_feed_authors. simpl.
  split.
  - intros Hmissing. apply existsb_missing_authors in Hmissing. rewrite Hmissing. reflexivity.
  - intros Hfields. rewrite Hfields.
    destruct (existsb _ (Entries f)) eqn:E.
    + apply existsb_missing_authors in E. destruct E as [e [Hin He]].
      split; [discriminate | intros Hall; exfalso; exact (Hall e Hin He)].
    + split; [intros _ | reflexivity].
      intros e Hin He. assert (Hex : exists e, In e (Entries f) /\ Entry_GetAuthors e = [])
        by (exists e; auto).
      apply existsb_missing_authors in Hex. congruence.
Qed.

Module ExAtom.

Definition jane : PersonConstruct := mkPerson "Jane Doe" (Some "jane@example.com") None.
Definition authored : Entry := mkEntry [jane] None.
Definition unauthored : Entry := mkEntry [] None.
Definition no_errors (_ : AtomFeed) : option string := None.

End ExAtom.

Lemma AtomFeed_Validate_author_rule_witness :
  AtomFeed_Validate ExAtom.no_errors (mkAtomFeed [] None [ExAtom.authored; ExAtom.unauthored]) =
    Some ErrFeedAuthors /\
  (AtomFeed_Validate ExAtom.no_errors (mkAtomFeed [] None [ExAtom.authored]) = None <->
   forall e, In e [ExAtom.authored] -> Entry_GetAuthors e <> []).
Proof.
  split.
  - apply (AtomFeed_Validate_author_rule ExAtom.no_errors
             (mkAtomFeed [] None [ExAtom.authored; ExAtom.unauthored])); [reflexivity |].
    exists ExAtom.unauthored. split; [right; left; reflexivity | reflexivity].
  - apply (AtomFeed_Validate_author_rule ExAtom.no_errors (mkAtomFeed [] None [ExAtom.authored]));
      reflexivity.
Defined.

(* ------------------------------------------------------------------------- *)
(** * Person display strings *)

(** C8 counterexample: a person with a URI gets it appended after the
    parenthesized email. *)
Lemma PersonConstruct_String_appends_uri :
  PersonConstruct_String
    (mkPerson "Jane Doe" (Some "jane@example.com") (Some "https://jane.example.com")) =
  "Jane Doe (jane@example.com) https://jane.example.com".
Proof. reflexivity. Qed.

(** C8 (amended): the display string is the name, then " (email)" when the
    email is present and non-empty, then " uri" when the URI is present and
    non-empty; an absent or empty email adds nothing, and so does an absent
    or empty URI, so with neither it is the name alone. *)
Theorem PersonConstruct_String_format (name : string) :
  PersonConstruct_String (mkPerson name None None) = name /\
  PersonConstruct_String (mkPerson name (Some EmptyString) None) = name /\
  (forall email, email <> EmptyString ->
     PersonConstruct_String (mkPerson name (Some email) None) = name ++ " (" ++ email ++ ")") /\
  (forall email,
     PersonConstruct_String (mkPerson name email (Some EmptyString)) =
     PersonConstruct_String (mkPerson name email None)) /\
  (forall email uri, uri <> EmptyString ->
     PersonConstruct_String (mkPerson name email (Some uri)) =
     PersonConstruct_String (mkPerson name email None) ++ " " ++ uri).
Proof.
  unfold PersonConstruct_String; simpl.
  split; [apply string_app_nil_r |].
  split; [apply string_app_nil_r |].
  split; [| split].
  - intros email Hemail. apply String.eqb_neq in Hemail. rewrite Hemail.
    rewrite string_app_nil_r. reflexivity.
  - intros email. reflexivity.
  - intros email uri Huri. apply String.eqb_neq in Huri. rewrite Huri.
    rewrite string_app_nil_r, string_app_assoc. reflexivity.
Qed.

Lemma PersonConstruct_String_format_witness :
  PersonConstruct_String (mkPerson "Jane Doe" (Some "jane@example.com") None) =
  "Jane Doe (jane@example.com)".
Proof.
  apply (proj1 (proj2 (proj2 (PersonConstruct_String_format "Jane Doe"))) "jane@example.com").
  discriminate.
Defined.

(* ------------------------------------------------------------------------- *)
(** * Sanitization *)

Ltac ascii_cases c := destruct c as [[] [] [] [] [] [] [] []].

(** [html.UnescapeString] undoes [html.EscapeString]. *)
Lemma UnescapeString_EscapeString (u : string) : UnescapeString (EscapeString u) = u.
Proof.
  induction u as [|c rest IH]; [reflexivity|].
  ascii_cases c; simpl; rewrite IH; reflexivity.
Qed.

Section TrimLeadFacts.

Context (sp2 : ascii -> ascii -> bool) (sp3 : ascii -> ascii -> ascii -> bool).

Lemma trim_lead_stop (l : list ascii) :
  starts_space sp2 sp3 l = false -> trim_lead sp2 sp3 l = l.
Proof.
  destruct l as [|c [|d [|e r]]]; simpl; intros H; [reflexivity | | |];
    repeat rewrite orb_false_iff in H.
  - rewrite H. reflexivity.
  - destruct H as [H1 H2]. rewrite H1, H2. reflexivity.
  - destruct H as [[H1 H2] H3]. rewrite H1, H2, H3. reflexivity.
Qed.

(** What [trim_lead] leaves does not start with white space. *)
Lemma trim_lead_result (l : list ascii) : starts_space sp2 sp3 (trim_lead sp2 sp3 l) = false.
Proof.
  induction l as [l IH] using (induction_ltof1 _ (@length ascii)). unfold ltof in IH.
  destruct l as [|c rest]; [reflexivity|]. simpl.
  destruct (is_space c) eqn:E1; [apply IH; simpl; lia|].
  destruct rest as [|d rest2]; [simpl; rewrite E1; reflexivity|].
  destruct (sp2 c d) eqn:E2; [apply IH; simpl; lia|].
  destruct rest2 as [|e rest3]; [simpl; rewrite E1, E2; reflexivity|].
  destruct (sp3 c d e) eqn:E3; [apply IH; simpl; lia|].
  simpl. rewrite E1, E2, E3. reflexivity.
Qed.

Lemma trim_lead_idem (l : list ascii) :
  trim_lead sp2 sp3 (trim_lead sp2 sp3 l) = trim_lead sp2 sp3 l.
Proof. apply trim_lead_stop, trim_lead_result. Qed.

(** [trim_lead] drops a prefix. *)
Lemma trim_lead_suffix (l : list ascii) : exists p, l = (p ++ trim_lead sp2 sp3 l)%list.
Proof.
  induction l as [l IH] using (induction_ltof1 _ (@length ascii)). unfold ltof in IH.
  destruct l as [|c rest]; [exists []; reflexivity|]. simpl.
  destruct (is_space c) eqn:E1.
  { destruct (IH rest) as [p Hp]; [simpl; lia|]. exists (c :: p). simpl. f_equal. exact Hp. }
  destruct rest as [|d rest2]; [exists []; reflexivity|].
  destruct (sp2 c d) eqn:E2.
  { destruct (IH rest2) as [p Hp]; [simpl; lia|]. exists (c :: d :: p). simpl. do 2 f_equal. exact Hp. }
  destruct rest2 as [|e rest3]; [exists []; reflexivity|].
  destruct (sp3 c d e) eqn:E3.
  { destruct (IH rest3) as [p Hp]; [simpl; lia|].
    exists (c :: d :: e :: p). simpl. do 3 f_equal. exact Hp. }
  exists []. reflexivity.
Qed.

(** A prefix of bytes that do not start with white space does not either. *)
Lemma starts_space_prefix (x y : list ascii) :
  starts_space sp2 sp3 (x ++ y) = false -> starts_space sp2 sp3 x = false.
Proof.
  destruct x as [|c [|d [|e r]]]; [reflexivity| | |]; destruct y as [|y1 [|y2 yr]];
    simpl; intros H; repeat rewrite orb_false_iff in *; tauto.
Qed.

End TrimLeadFacts.

Lemma TrimSpace_idem (s : string) : TrimSpace (TrimSpace s) = TrimSpace s.
Proof.
  unfold TrimSpace. rewrite list_ascii_of_string_of_list_ascii. f_equal.
  remember (trim_left (list_ascii_of_string s)) as L eqn:EL.
  assert (HL : starts_space is_space2 is_space3 L = false)
    by (rewrite EL; apply trim_lead_result).
  destruct (trim_lead_suffix (fun d c => is_space2 c d) (fun e d c => is_space3 c d e) (rev L))
    as [p Hp].
  assert (Hpre : L = (trim_right L ++ rev p)%list).
  { rewrite <- (rev_involutive L) at 1. rewrite Hp, rev_app_distr. reflexivity. }
  assert (Hleft : trim_left (trim_right L) = trim_right L).
  { apply trim_lead_stop. apply (starts_space_prefix _ _ _ (rev p)). rewrite <- Hpre. exact HL. }
  rewrite Hleft. unfold trim_right. rewrite rev_involutive, trim_lead_idem. reflexivity.
Qed.

(** C9 (code bug): [SanitizeString] undoes the escaping the policy applies
    to text.  Whatever text [u] the policy returns HTML-escaped,
    [SanitizeString] returns [u] itself, trimmed, so escaped markup such as
    [&lt;script&gt;] comes back as a live [<script>] tag; and when the
    policy removes the tags of [u], keeping the text [v], a second pass
    gives [v]: sanitizing is not idempotent, and its result keeps markup
    the policy removes. *)
Theorem SanitizeString_unescapes_markup (policy_Sanitize : string -> string) (str u v : string)
  (Hescaped : policy_Sanitize str = EscapeString u)
  (Hstrip : policy_Sanitize (TrimSpace u) = EscapeString v) :
  SanitizeString policy_Sanitize str = TrimSpace u /\
  SanitizeString policy_Sanitize (SanitizeString policy_Sanitize str) = TrimSpace v.
Proof.
  assert (Hfirst : SanitizeString policy_Sanitize str = TrimSpace u)
    by (unfold SanitizeString; rewrite Hescaped, UnescapeString_EscapeString; reflexivity).
  split; [exact Hfirst|]. rewrite Hfirst.
  unfold SanitizeString. rewrite Hstrip, UnescapeString_EscapeString. reflexivity.
Qed.

Lemma SanitizeString_unescapes_markup_witness :
  SanitizeString UGC.sanitize "&lt;blink&gt;hi&lt;/blink&gt;" = "<blink>hi</blink>" /\
  SanitizeString UGC.sanitize (SanitizeString UGC.sanitize "&lt;blink&gt;hi&lt;/blink&gt;") = "hi".
Proof.
  apply (SanitizeString_unescapes_markup UGC.sanitize "&lt;blink&gt;hi&lt;/blink&gt;"
           "<blink>hi</blink>" "hi"); reflexivity.
Defined.

(* ------------------------------------------------------------------------- *)
(** * Discovery over a split token stream *)

Section DiscoveryComposition.

Context (URL : Type) (url_Parse : string -> option URL) (url_IsAbs : URL -> bool)
  (url_Path : URL -> string) (url_SetPath : URL -> string -> URL) (url_String : URL -> string)
  (url_JoinPath : string -> string -> option string).

Let discover := discoverFeedURL URL url_Parse url_IsAbs url_Path url_SetPath url_String url_JoinPath.

(** Only the end of the token stream reports [DiscoverTokenizer]. *)
Lemma use_attr_not_eof (p : URL) (attrs : list Attribute) (idx : nat) (v : string) :
  use_attr URL url_Parse url_IsAbs url_Path url_SetPath url_String url_JoinPath p attrs idx
  <> DErr v DiscoverTokenizer.
Proof.
  unfold use_attr, resolve_feed_url.
  destruct (nth_error attrs idx) as [a|]; [|discriminate].
  destruct (url_Parse (Val a)) as [u|]; [|discriminate].
  destruct (url_IsAbs u); [discriminate|].
  destruct (url_JoinPath "/" (url_Path u)); discriminate.
Qed.

Ltac keep_use_attr idx :=
  match goal with
  | |- use_attr _ _ _ _ _ _ _ ?p ?attrs _ = _ =>
      generalize (use_attr_not_eof p attrs idx);
      destruct (use_attr _ _ _ _ _ _ _ p attrs idx) as [|v [] |]; intros Hne;
      try reflexivity; exfalso; exact (Hne v eq_refl)
  end.

Lemma scan_app (p : URL) (ts1 ts2 : list Token) :
  scan URL url_Parse url_IsAbs url_Path url_SetPath url_String url_JoinPath p (ts1 ++ ts2) =
  match scan URL url_Parse url_IsAbs url_Path url_SetPath url_String url_JoinPath p ts1 with
  | DErr _ DiscoverTokenizer =>
      scan URL url_Parse url_IsAbs url_Path url_SetPath url_String url_JoinPath p ts2
  | r => r
  end.
Proof.
  induction ts1 as [|t ts1 IH]; [reflexivity|].
  cbn [app scan].
  destruct (TokType t); try exact IH.
  - destruct (negb (String.eqb (Data t) "a")); [exact IH|].
    destruct (negb (existsb is_href_feed_suffix (Attr t))); [exact IH|].
    destruct (index_func is_href_feed_suffix (Attr t)) as [n|]; [keep_use_attr n | exact IH].
  - destruct (negb (String.eqb (Data t) "link")); [exact IH|].
    destruct (negb _); [exact IH|].
    destruct (index_func is_href (Attr t)) as [[|n]|]; [exact IH | keep_use_attr (S n) |].
    reflexivity.
Qed.

(** Discovery over a document split in two parts: the first part decides,
    and the second is scanned only when the first reaches its end with
    nothing found. *)
Theorem discoverFeedURL_app (page : string) (ts1 ts2 : list Token) :
  discover page (ts1 ++ ts2) =
  match discover page ts1 with
  | DErr _ DiscoverTokenizer => discover page ts2
  | r => r
  end.
Proof.
  unfold discover, discoverFeedURL.
  destruct (url_Parse page) as [p|]; [apply scan_app | reflexivity].
Qed.

End DiscoveryComposition.

(* ------------------------------------------------------------------------- *)
(** * Recursion through discovered pages, and the items of a URL *)

Section PipelineRecursion.

Context (decode : FeedKind -> string -> option Doc) (validate : FeedSource -> option string)
  (fetch : string -> Response) (ParseMediaType : string -> option string)
  (tokenize : string -> list Token) (URL : Type) (url_Parse : string -> option URL)
  (url_IsAbs : URL -> bool) (url_Path : URL -> string) (url_SetPath : URL -> string -> URL)
  (url_String : URL -> string) (url_JoinPath : string -> string -> option string).

Let parse := parseFeedURL decode validate fetch ParseMediaType tokenize URL url_Parse url_IsAbs
  url_Path url_SetPath url_String url_JoinPath.
Let discover := discoverFeedURL URL url_Parse url_IsAbs url_Path url_SetPath url_String url_JoinPath.

(** An HTML page whose discovered feed URL is the page's own URL is fetched
    again and again: [parseFeedURL] keeps no record of visited URLs, so the
    call never returns, at any recursion depth. *)
Theorem parseFeedURL_self_discovery_diverges (url : string) (code : Z)
  (status content body mediatype : string)
  (Hfetch : fetch url = Resp code status content body) (Hstatus : IsError code = false)
  (Hcontent : content <> EmptyString) (Hmedia : ParseMediaType content = Some mediatype)
  (Hhtml : In mediatype MimeTypesHTML)
  (Hself : discover url (tokenize body) = DOk url) (Hurl : url <> EmptyString) :
  forall fuel, parse fuel url = OutOfFuel.
Proof.
  unfold parse. induction fuel as [|fuel IH]; [reflexivity|].
  cbn [parseFeedURL]. rewrite Hfetch, Hstatus.
  destruct (String.eqb_spec content EmptyString) as [E|_]; [contradiction|].
  fold discover. rewrite Hself.
  destruct (String.eqb_spec url EmptyString) as [E|_]; [contradiction|].
  unfold isMimeType. rewrite Hmedia.
  destruct Hhtml as [<-|[<-|[]]]; exact IH.
Qed.

(** The worker of [NewItemsFromURLs] for one URL: it panics exactly when
    [parseFeedURL] does (a returned result never has both a nil feed and a
    nil error), and every result it sends carries the requested URL, also
    when [parseFeedURL]'s own result has an empty one. *)
Theorem feed_items_result_of_parseFeedURL (Item : Type) (GetItems : FeedSource -> list Item)
  (fuel : nat) (url : string) :
  (feed_items_result Item GetItems url (parse fuel url) = ItemsPanicked Item <->
   parse fuel url = Panicked) /\
  (forall r, feed_items_result Item GetItems url (parse fuel url) = ItemsReturned Item r ->
             ItemsURL Item r = url).
Proof.
  destruct (parse fuel url) as [r| |] eqn:E; simpl.
  - pose proof (parseFeedURL_exclusive decode validate fetch ParseMediaType tokenize URL url_Parse
                  url_IsAbs url_Path url_SetPath url_String url_JoinPath fuel url r E) as Hx.
    unfold exclusive in Hx.
    destruct (Err_of r) as [e|]; [|destruct (Feed_of r) as [f|]].
    + split; [split; discriminate | intros r' [= <-]; reflexivity].
    + split; [split; discriminate | intros r' [= <-]; reflexivity].
    + exfalso. apply (proj1 Hx); reflexivity.
  - split; [tauto | discriminate].
  - split; [split; discriminate | discriminate].
Qed.

End PipelineRecursion.

Module ExLoop.

(** A page whose only feed link points back to the page's own URL. *)
Definition page_body : string :=
  "<link rel='alternate' type='application/rss+xml' href='https://example.com/feed.xml'/>".
Definition fetch_html (_ : string) : Response := Resp 200 "200 OK" "text/html" page_body.
Definition tokenize_link (_ : string) : list Token := [ExHTML.link_href_last].

End ExLoop.

Lemma parseFeedURL_self_discovery_diverges_witness :
  parseFeedURL Ex.decode_any Ex.validate_ok ExLoop.fetch_html Ex.parse_media_type
    ExLoop.tokenize_link string Ex.url_Parse Ex.url_IsAbs Ex.url_Path Ex.url_SetPath
    Ex.url_String Ex.url_JoinPath 5 ExHTML.href = OutOfFuel.
Proof.
  apply (parseFeedURL_self_discovery_diverges Ex.decode_any Ex.validate_ok ExLoop.fetch_html
           Ex.parse_media_type ExLoop.tokenize_link string Ex.url_Parse Ex.url_IsAbs Ex.url_Path
           Ex.url_SetPath Ex.url_String Ex.url_JoinPath ExHTML.href 200 "200 OK" "text/html"
           ExLoop.page_body "text/html"); try reflexivity; try discriminate.
  simpl. left. reflexivity.
Defined.

(* ------------------------------------------------------------------------- *)
(** * Date parsing *)

Section TryFormatsFacts.

Context (time_Parse : string -> string -> option Z).

(** Once [data] is trimmed, the loop keeps it and replaces [parsed] by every
    successful parse. *)
Lemma fold_try_format_trimmed (formats : list string) (data : string) (parsed : Z) :
  TrimSpace data = data ->
  fold_left (try_format time_Parse) formats (data, parsed) =
  (data, fold_left (fun p format => match time_Parse format data with
                                    | Some v => v | None => p end) formats parsed).
Proof.
  intros Htrim. revert parsed.
  induction formats as [|format formats IH]; intros parsed; [reflexivity|].
  simpl. unfold try_format at 2. simpl. rewrite Htrim.
  destruct (time_Parse format data); apply IH.
Qed.

Lemma tryFormats_fold (data : string) :
  tryFormats time_Parse data =
  (fold_left (fun p format => match time_Parse format (TrimSpace data) with
                              | Some v => v | None => p end) DateTimeFormats ZeroTime, None).
Proof.
  unfold tryFormats.
  assert (Hcons : exists f fs, DateTimeFormats = f :: fs) by (do 2 eexists; reflexivity).
  destruct Hcons as [f [fs ->]]. cbn [fold_left].
  unfold try_format at 2. cbn [fst snd].
  destruct (time_Parse f (TrimSpace data));
    rewrite fold_try_format_trimmed by apply TrimSpace_idem; reflexivity.
Qed.

Lemma fold_last_parse (formats : list string) (data : string) (p : Z) :
  (forall format, In format formats -> time_Parse format data = None) ->
  fold_left (fun p format => match time_Parse format data with
                             | Some v => v | None => p end) formats p = p.
Proof.
  revert p. induction formats as [|format formats IH]; intros p H; [reflexivity|].
  simpl. rewrite (H format (or_introl eq_refl)). apply IH. intros g Hg. apply H. right. exact Hg.
Qed.

(** [tryFormats] never reports an error, and it returns the parse of the
    last layout in [DateTimeFormats] that accepts the value trimmed by
    [strings.TrimSpace]. *)
Theorem tryFormats_last_match_wins (data : string) (pre post : list string) (format : string)
  (v : Z) (Hsplit : DateTimeFormats = (pre ++ format :: post)%list)
  (Hparse : time_Parse format (TrimSpace data) = Some v)
  (Hlater : forall g, In g post -> time_Parse g (TrimSpace data) = None) :
  (forall data', snd (tryFormats time_Parse data') = None) /\
  tryFormats time_Parse data = (v, None).
Proof.
  split; [reflexivity|].
  rewrite tryFormats_fold, Hsplit, fold_left_app. cbn [fold_left]. rewrite Hparse.
  rewrite fold_last_parse by exact Hlater. reflexivity.
Qed.

(** A value that no layout accepts is not an error for
    [DateTime.UnmarshalText]: the [DateTime] is overwritten with the zero
    time, which [DateTime.Valid] then rejects. *)
Theorem DateTime_UnmarshalText_unparsable (d : Z) (data : string)
  (Hnone : forall format, In format DateTimeFormats -> time_Parse format (TrimSpace data) = None) :
  DateTime_UnmarshalText time_Parse d data = (ZeroTime, None) /\
  DateTime_Valid (fst (DateTime_UnmarshalText time_Parse d data)) =
  (false, Some (ErrInvalidDateTimeFormat "is zero time value")).
Proof.
  unfold DateTime_UnmarshalText. rewrite tryFormats_fold.
  rewrite fold_last_parse by exact Hnone. split; reflexivity.
Qed.

End TryFormatsFacts.

Module ExDates.

(** A [time.Parse] that accepts the year-only layout on "2024". *)
Definition parse_year (layout value : string) : option Z :=
  if String.eqb layout "2006" && String.eqb value "2024" then Some (1704067200 * 10 ^ 9)%Z
  else None.
(** "2024" after a no-break space (U+00A0, bytes C2 A0) and before a
    newline. *)
Definition nbsp_2024 : string :=
  String (ascii_of_nat 194) (String (ascii_of_nat 160) ("2024" ++ String (ascii_of_nat 10) EmptyString)).
Definition never_parses (_ _ : string) : option Z := None.

End ExDates.

Lemma tryFormats_last_match_wins_witness :
  tryFormats ExDates.parse_year ExDates.nbsp_2024 = ((1704067200 * 10 ^ 9)%Z, None).
Proof.
  apply (tryFormats_last_match_wins ExDates.parse_year ExDates.nbsp_2024 (firstn 14 DateTimeFormats)
           (skipn 15 DateTimeFormats) "2006"); try reflexivity.
  intros g Hg. simpl in Hg. destruct Hg as [<-|[<-|[<-|[]]]]; reflexivity.
Defined.

Lemma DateTime_UnmarshalText_unparsable_witness :
  DateTime_UnmarshalText ExDates.never_parses 1704067200%Z "yesterday" = (ZeroTime, None).
Proof.
  apply (DateTime_UnmarshalText_unparsable ExDates.never_parses 1704067200%Z "yesterday").
  intros format _. reflexivity.
Defined.

(* ------------------------------------------------------------------------- *)
(** * Median of durations *)

Lemma insert_sorted_comm (a b : Z) (l : list Z) :
  insert_sorted a (insert_sorted b l) = insert_sorted b (insert_sorted a l).
Proof.
  induction l as [|y l IH]; simpl.
  - destruct (Z.leb_spec a b), (Z.leb_spec b a); try reflexivity; try lia.
    replace b with a by lia. reflexivity.
  - destruct (Z.leb_spec b y), (Z.leb_spec a y); simpl;
      repeat match goal with
             | |- context [(?x <=? ?z)%Z] => destruct (Z.leb_spec x z)
             end; simpl; try rewrite IH; try reflexivity; try lia.
    all: replace b with a by lia; reflexivity.
Qed.

Lemma slices_Sort_perm (a b : list Z) : Permutation a b -> slices_Sort a = slices_Sort b.
Proof.
  unfold slices_Sort.
  induction 1 as [| x l l' _ IH | x y l | l l' l'' _ IH1 _ IH2]; simpl.
  - reflexivity.
  - rewrite IH. reflexivity.
  - apply insert_sorted_comm.
  - congruence.
Qed.

Lemma insert_sorted_perm (x : Z) (l : list Z) : Permutation (insert_sorted x l) (x :: l).
Proof.
  induction l as [|y l IH]; simpl; [reflexivity|].
  destruct (x <=? y)%Z; [reflexivity|].
  eapply perm_trans; [apply perm_skip, IH | apply perm_swap].
Qed.

Lemma slices_Sort_is_perm (l : list Z) : Permutation (slices_Sort l) l.
Proof.
  induction l as [|x l IH]; simpl; [reflexivity|].
  eapply perm_trans; [apply insert_sorted_perm | apply perm_skip, IH].
Qed.

Lemma wrap64_small (x : Z) : (int64_min <= x <= int64_max)%Z -> wrap64 x = x.
Proof.
  unfold wrap64, int64_min, int64_max. intros H.
  rewrite Z.mod_small by lia. lia.
Qed.

Lemma quot2_between (lo hi x : Z) : (2 * lo <= x <= 2 * hi)%Z -> (lo <= Z.quot x 2 <= hi)%Z.
Proof.
  intros H. pose proof (Z.quot_rem x 2 ltac:(lia)) as Hq.
  pose proof (Z.rem_bound_abs x 2 ltac:(lia)) as Hr.
  destruct (Z.le_gt_cases 0 x) as [Hx|Hx].
  - pose proof (Z.rem_nonneg x 2 ltac:(lia) Hx). lia.
  - pose proof (Z.rem_nonpos x 2 ltac:(lia)). lia.
Qed.

Lemma median_within_bounds (data : list Z) (lo hi : Z)
  (Hnonempty : data <> []) (Hlo : (- 2 ^ 62 <= lo)%Z) (Hhi : (hi < 2 ^ 62)%Z)
  (Hrange : forall x, In x data -> (lo <= x <= hi)%Z) :
  (lo <= GetMedianInterval data <= hi)%Z.
Proof.
  assert (Hs : forall x, In x (slices_Sort data) -> (lo <= x <= hi)%Z).
  { intros x Hx. apply Hrange. eapply Permutation_in; [apply slices_Sort_is_perm | exact Hx]. }
  assert (Hlen : length (slices_Sort data) = length data)
    by apply Permutation_length, slices_Sort_is_perm.
  assert (Hpos : (0 < length data)%nat)
    by (destruct data; [contradiction | simpl; lia]).
  unfold GetMedianInterval. cbv zeta.
  set (s := slices_Sort data) in *. set (n := length s) in *.
  assert (Hmid : (n / 2 < n)%nat) by (apply Nat.div_lt; lia).
  destruct (Nat.eqb_spec n 0) as [E|_]; [lia|].
  assert (Hm : (lo <= nth (n / 2) s 0 <= hi)%Z) by (apply Hs, nth_In; exact Hmid).
  destruct (Nat.eqb_spec (n mod 2) 0) as [Heven|_]; [|exact Hm].
  assert (Hm1 : (lo <= nth (n / 2 - 1) s 0 <= hi)%Z) by (apply Hs, nth_In; fold n; eapply Nat.le_lt_trans; [apply Nat.le_sub_l | exact Hmid]).
  rewrite wrap64_small by (unfold int64_min, int64_max; lia).
  apply quot2_between. lia.
Qed.

(** The median of a non-empty list of durations lies within any bounds
    [lo], [hi] of its elements inside [-2^62, 2^62): there the sum of the two
    middle values does not wrap around. *)
Theorem GetMedianInterval_bounds (data : list Z) (lo hi : Z)
  (Hnonempty : data <> []) (Hlo : (- 2 ^ 62 <= lo)%Z) (Hhi : (hi < 2 ^ 62)%Z)
  (Hrange : forall x, In x data -> (lo <= x <= hi)%Z) :
  (lo <= GetMedianInterval data <= hi)%Z.
Proof. exact (median_within_bounds data lo hi Hnonempty Hlo Hhi Hrange). Qed.

(** Reordering the durations does not change the median. *)
Theorem GetMedianInterval_perm (a b : list Z) (Hperm : Permutation a b) :
  GetMedianInterval a = GetMedianInterval b.
Proof. unfold GetMedianInterval. rewrite (slices_Sort_perm a b Hperm). reflexivity. Qed.

(** Two equal durations of at least [2^62] nanoseconds (about 146 years)
    have a negative median: their sum wraps around. *)
Theorem GetMedianInterval_pair_overflow (d : Z)
  (Hlo : (2 ^ 62 <= d)%Z) (Hhi : (d <= int64_max)%Z) :
  GetMedianInterval [d; d] = (d - 2 ^ 63)%Z /\ (GetMedianInterval [d; d] < 0)%Z.
Proof.
  unfold GetMedianInterval, slices_Sort. simpl. rewrite Z.leb_refl. simpl.
  assert (Hw : wrap64 (d + d) = ((d - 2 ^ 63) * 2)%Z).
  { unfold wrap64. unfold int64_max in Hhi.
    rewrite <- (Z.mod_unique (d + d + 2 ^ 63) (2 ^ 64) 1 (d + d + 2 ^ 63 - 2 ^ 64)); lia. }
  rewrite Hw, Z.quot_mul by lia. unfold int64_max in Hhi. split; [reflexivity | lia].
Qed.

Lemma GetMedianInterval_bounds_witness :
  (-3 <= GetMedianInterval [5%Z; (-3)%Z; 2%Z; 7%Z] <= 7)%Z.
Proof.
  apply (GetMedianInterval_bounds [5%Z; (-3)%Z; 2%Z; 7%Z] (-3) 7); try discriminate; try lia.
  intros x Hx. simpl in Hx. lia.
Defined.

Lemma GetMedianInterval_perm_witness :
  GetMedianInterval [3%Z; 1%Z; 2%Z] = GetMedianInterval [1%Z; 2%Z; 3%Z].
Proof.
  apply (GetMedianInterval_perm [3%Z; 1%Z; 2%Z] [1%Z; 2%Z; 3%Z]).
  eapply perm_trans; [apply perm_swap | apply perm_skip, perm_swap].
Defined.

Lemma GetMedianInterval_pair_overflow_witness :
  GetMedianInterval [(2 ^ 62)%Z; (2 ^ 62)%Z] = (- 2 ^ 62)%Z.
Proof.
  destruct (GetMedianInterval_pair_overflow (2 ^ 62)%Z) as [H _];
    [lia | unfold int64_max; lia |].
  rewrite H. reflexivity.
Defined.

(* ------------------------------------------------------------------------- *)
(** * Update interval of a JSONFeed *)

Lemma update_intervals_cons2 (a b : JSONItem) (r : list JSONItem) :
  update_intervals (a :: b :: r) =
  if negb (Z.eqb (JSONItem_GetUpdatedDate a) UnixEpoch)
     && negb (Z.eqb (JSONItem_GetUpdatedDate b) UnixEpoch)
  then time_Sub (JSONItem_GetUpdatedDate a) (JSONItem_GetUpdatedDate b)
         :: update_intervals (b :: r)
  else update_intervals (b :: r).
Proof. reflexivity. Qed.

Lemma update_intervals_undated (items : list JSONItem) :
  Forall (fun i => DateModified i = None) items -> update_intervals items = [].
Proof.
  induction items as [|a l IH]; intros H; [reflexivity|].
  inversion H as [|? ? Ha Hl]; subst.
  destruct l as [|b r]; [reflexivity|].
  simpl. unfold JSONItem_GetUpdatedDate at 1. rewrite Ha. simpl. apply IH, Hl.
Qed.

(** With at most two items, or with no item carrying [date_modified], the
    update interval is the five-minute default. *)
Theorem JSONFeed_GetUpdateInterval_default (f : JSONFeed)
  (H : (length (Items f) <= 2)%nat \/ Forall (fun i => DateModified i = None) (Items f)) :
  JSONFeed_GetUpdateInterval f = (5 * Minute)%Z.
Proof.
  unfold JSONFeed_GetUpdateInterval. cbv zeta.
  destruct H as [H|H].
  - destruct (Nat.ltb_spec 2 (length (Items f))); [lia | reflexivity].
  - rewrite update_intervals_undated by exact H.
    destruct (2 <? length (Items f))%nat; reflexivity.
Qed.

Lemma update_intervals_forall (P : JSONItem -> Prop) (R : JSONItem -> JSONItem -> Prop)
  (Q : Z -> Prop) (items : list JSONItem)
  (HQ : forall a b, P a -> P b -> R a b ->
                    Q (time_Sub (JSONItem_GetUpdatedDate a) (JSONItem_GetUpdatedDate b)))
  (HP : Forall P items) (HR : Sorted R items) :
  Forall Q (update_intervals items).
Proof.
  induction items as [|a l IH]; [constructor|].
  destruct l as [|b r]; [constructor|].
  inversion HP as [|? ? Pa Pl]; subst. inversion Pl as [|? ? Pb _]; subst.
  inversion HR as [|? ? Hs Hd]; subst. inversion Hd as [|? ? Rab]; subst.
  rewrite update_intervals_cons2. destruct (_ && _); [constructor; [apply HQ; assumption|] |]; apply IH; assumption.
Qed.

Lemma update_intervals_length (items : list JSONItem) :
  Forall (fun i => JSONItem_GetUpdatedDate i <> UnixEpoch) items ->
  length (update_intervals items) = pred (length items).
Proof.
  induction items as [|a l IH]; intros H; [reflexivity|].
  inversion H as [|? ? Ha Hl]; subst.
  destruct l as [|b r]; [reflexivity|].
  inversion Hl as [|? ? Hb _]; subst. rewrite update_intervals_cons2.
  destruct (Z.eqb_spec (JSONItem_GetUpdatedDate a) UnixEpoch); [contradiction|].
  destruct (Z.eqb_spec (JSONItem_GetUpdatedDate b) UnixEpoch); [contradiction|].
  cbn [negb andb length]. rewrite IH by exact Hl. reflexivity.
Qed.

(** The items' dates: all after the epoch and before the year 2096. *)
Definition dated_item (i : JSONItem) : Prop :=
  exists t, DateModified i = Some t /\ (0 < t < 4 * 10 ^ 18)%Z.

Lemma dated_item_not_epoch (i : JSONItem) :
  dated_item i -> JSONItem_GetUpdatedDate i <> UnixEpoch.
Proof.
  intros [t [Ht Hr]]. unfold JSONItem_GetUpdatedDate, UnixEpoch. rewrite Ht. lia.
Qed.

Lemma dated_item_date (i : JSONItem) :
  dated_item i -> (0 < JSONItem_GetUpdatedDate i < 4 * 10 ^ 18)%Z.
Proof. intros [t [Ht Hr]]. unfold JSONItem_GetUpdatedDate. rewrite Ht. exact Hr. Qed.

Lemma GetUpdateInterval_range (f : JSONFeed) (R : JSONItem -> JSONItem -> Prop) (lo hi : Z)
  (Hlen : (2 < length (Items f))%nat) (Hdated : Forall dated_item (Items f))
  (Hsorted : Sorted R (Items f)) (Hlo : (- 2 ^ 62 <= lo)%Z) (Hhi : (hi < 2 ^ 62)%Z)
  (HQ : forall a b, dated_item a -> dated_item b -> R a b ->
        (lo <= time_Sub (JSONItem_GetUpdatedDate a) (JSONItem_GetUpdatedDate b) <= hi)%Z) :
  (lo <= JSONFeed_GetUpdateInterval f <= hi)%Z.
Proof.
  unfold JSONFeed_GetUpdateInterval. cbv zeta.
  destruct (Nat.ltb_spec 2 (length (Items f))) as [_|]; [|lia].
  assert (Hl : length (update_intervals (Items f)) = pred (length (Items f))).
  { apply update_intervals_length. eapply Forall_impl; [apply dated_item_not_epoch | exact Hdated]. }
  destruct (Nat.ltb_spec 0 (length (update_intervals (Items f)))) as [_|]; [|lia].
  apply median_within_bounds; [| exact Hlo | exact Hhi |].
  - intros E. rewrite E in Hl. simpl in Hl. lia.
  - apply Forall_forall. eapply update_intervals_forall; [exact HQ | exact Hdated | exact Hsorted].
Qed.

Lemma time_Sub_exact (t u : Z) :
  (int64_min <= t - u <= int64_max)%Z -> time_Sub t u = (t - u)%Z.
Proof.
  unfold time_Sub. intros H.
  destruct (Z.ltb_spec int64_max (t - u)); [lia|].
  destruct (Z.ltb_spec (t - u) int64_min); [lia | reflexivity].
Qed.

(** A JSONFeed of more than two items, all dated after the epoch (and
    before 2096), listed newest first, has a positive update interval. *)
Theorem JSONFeed_GetUpdateInterval_newest_first (f : JSONFeed)
  (Hlen : (2 < length (Items f))%nat) (Hdated : Forall dated_item (Items f))
  (Hsorted : Sorted (fun a b => (JSONItem_GetUpdatedDate b < JSONItem_GetUpdatedDate a)%Z)
               (Items f)) :
  (0 < JSONFeed_GetUpdateInterval f)%Z.
Proof.
  enough (H : (1 <= JSONFeed_GetUpdateInterval f <= 4 * 10 ^ 18)%Z) by lia.
  apply (GetUpdateInterval_range f _ 1 (4 * 10 ^ 18) Hlen Hdated Hsorted); [lia | lia |].
  intros a b Ha Hb Hab. apply dated_item_date in Ha. apply dated_item_date in Hb.
  rewrite time_Sub_exact by (unfold int64_min, int64_max; lia).
  lia.
Qed.

(** Listed oldest first, the same items give a negative update interval: the
    code subtracts each item's date from its predecessor's. *)
Theorem JSONFeed_GetUpdateInterval_oldest_first (f : JSONFeed)
  (Hlen : (2 < length (Items f))%nat) (Hdated : Forall dated_item (Items f))
  (Hsorted : Sorted (fun a b => (JSONItem_GetUpdatedDate a < JSONItem_GetUpdatedDate b)%Z)
               (Items f)) :
  (JSONFeed_GetUpdateInterval f < 0)%Z.
Proof.
  enough (H : (- 4 * 10 ^ 18 <= JSONFeed_GetUpdateInterval f <= - 1)%Z) by lia.
  apply (GetUpdateInterval_range f _ (- 4 * 10 ^ 18) (- 1) Hlen Hdated Hsorted); [lia | lia |].
  intros a b Ha Hb Hab. apply dated_item_date in Ha. apply dated_item_date in Hb.
  rewrite time_Sub_exact by (unfold int64_min, int64_max; lia).
  lia.
Qed.

Module ExInterval.

Definition item (t : Z) : JSONItem := mkJSONItem None (Some t).
(** Three items an hour apart, newest first, and the same oldest first. *)
Definition newest_first : JSONFeed :=
  mkJSONFeed [item (1704074400 * 10 ^ 9); item (1704070800 * 10 ^ 9); item (1704067200 * 10 ^ 9)].
Definition oldest_first : JSONFeed :=
  mkJSONFeed [item (1704067200 * 10 ^ 9); item (1704070800 * 10 ^ 9); item (1704074400 * 10 ^ 9)].
Definition undated : JSONFeed :=
  mkJSONFeed [mkJSONItem (Some (1704067200 * 10 ^ 9)%Z) None; mkJSONItem None None;
              mkJSONItem None None].

End ExInterval.

Lemma JSONFeed_GetUpdateInterval_default_witness :
  JSONFeed_GetUpdateInterval ExInterval.undated = (5 * Minute)%Z.
Proof.
  apply (JSONFeed_GetUpdateInterval_default ExInterval.undated).
  right. repeat constructor.
Defined.

Lemma JSONFeed_GetUpdateInterval_newest_first_witness :
  (0 < JSONFeed_GetUpdateInterval ExInterval.newest_first)%Z.
Proof.
  apply (JSONFeed_GetUpdateInterval_newest_first ExInterval.newest_first).
  - simpl. lia.
  - repeat constructor; eexists; (split; [reflexivity | lia]).
  - repeat constructor; simpl; lia.
Defined.

Lemma JSONFeed_GetUpdateInterval_oldest_first_witness :
  (JSONFeed_GetUpdateInterval ExInterval.oldest_first < 0)%Z.
Proof.
  apply (JSONFeed_GetUpdateInterval_oldest_first ExInterval.oldest_first).
  - simpl. lia.
  - repeat constructor; eexists; (split; [reflexivity | lia]).
  - repeat constructor; simpl; lia.
Defined.

(* ------------------------------------------------------------------------- *)
(** * JSONFeed images *)

(** [SetImage] with a nil image panics.  With an image it keeps the
    favicon, and [GetImage] then reports that image's URL, without its
    title, or nothing when that URL is empty. *)
Theorem JSONFeed_SetImage_GetImage (f : JSONFeedIcons) :
  JSONFeed_SetImage f None = None /\
  (forall i, exists f', JSONFeed_SetImage f (Some i) = Some f' /\ Favicon f' = Favicon f /\
     JSONFeed_GetImage f' =
     if String.eqb (ImageURL i) EmptyString then None
     else Some (mkImageInfo (ImageURL i) None)).
Proof.
  split; [reflexivity|].
  intros i. eexists. split; [reflexivity|]. split; [reflexivity|].
  unfold JSONFeed_GetImage. simpl.
  destruct (String.eqb (ImageURL i) EmptyString); reflexivity.
Qed.

(** An empty [icon] hides the [favicon]: the feed reports no image. *)
Theorem JSONFeed_GetImage_empty_icon (f : JSONFeedIcons) (Hicon : Icon f = Some EmptyString) :
  JSONFeed_GetImage f = None.
Proof. unfold JSONFeed_GetImage. rewrite Hicon. reflexivity. Qed.

Lemma JSONFeed_GetImage_empty_icon_witness :
  JSONFeed_GetImage (mkJSONFeedIcons (Some EmptyString) (Some "https://example.com/favicon.ico"))
  = None.
Proof. apply JSONFeed_GetImage_empty_icon. reflexivity. Defined.

(* ------------------------------------------------------------------------- *)
(** * Atom source URL *)

Lemma find_app_none {A} (p : A -> bool) (l1 l2 : list A) :
  find p (l1 ++ l2) = match find p l1 with Some x => Some x | None => find p l2 end.
Proof.
  induction l1 as [|x l1 IH]; simpl; [reflexivity|].
  destruct (p x); [reflexivity | exact IH].
Qed.

(** [SetSourceURL] followed by [GetSourceURL] on an atom feed gives the new
    URL only when the feed had no [rel=self] Atom link: otherwise the
    earlier link comes first and its [href] is still reported. *)
Theorem AtomFeed_SetSourceURL_GetSourceURL (LinkRelSelf : string)
  (HLinkRelSelf : LinkRelSelf <> EmptyString) (links : list Link) (url : string) :
  AtomFeed_GetSourceURL LinkRelSelf (AtomFeed_SetSourceURL LinkRelSelf links url) =
  match find (is_source_link LinkRelSelf) links with
  | Some link => Href link
  | None => url
  end.
Proof.
  unfold AtomFeed_GetSourceURL, AtomFeed_SetSourceURL. rewrite find_app_none.
  destruct (find (is_source_link LinkRelSelf) links); [reflexivity|].
  simpl. unfold is_source_link. simpl.
  destruct (String.eqb_spec LinkRelSelf EmptyString) as [E|_]; [contradiction|].
  rewrite String.eqb_refl. reflexivity.
Qed.

Module ExAtomLinks.

Definition old_self : Link := mkLink "https://old.example.com/atom.xml" "self" "application/atom+xml" None.

End ExAtomLinks.

Lemma AtomFeed_SetSourceURL_GetSourceURL_witness :
  AtomFeed_GetSourceURL "self"
    (AtomFeed_SetSourceURL "self" [ExAtomLinks.old_self] "https://example.com/atom.xml") =
  "https://old.example.com/atom.xml".
Proof.
  rewrite (AtomFeed_SetSourceURL_GetSourceURL "self" ltac:(discriminate)). reflexivity.
Defined.

(* ------------------------------------------------------------------------- *)
(** * Atom categories *)

(** A category without a (non-empty) label is shown by its element content
    whenever that content is present, even empty: the [term] is then
    ignored, and an empty content gives an empty string. *)
Theorem Category_String_content_shadows_term (policy_Sanitize : string -> string)
  (c : Category) (v : string)
  (Hlabel : Label c = None \/ Label c = Some EmptyString) (Hcontent : CategoryContent c = Some v) :
  Category_String policy_Sanitize c = SanitizeString policy_Sanitize v /\
  (v = EmptyString -> policy_Sanitize EmptyString = EmptyString ->
   Category_String policy_Sanitize c = EmptyString).
Proof.
  assert (H : Category_String policy_Sanitize c = SanitizeString policy_Sanitize v).
  { unfold Category_String. rewrite Hcontent.
    destruct Hlabel as [-> | ->]; reflexivity. }
  split; [exact H|]. intros -> Hp. rewrite H. unfold SanitizeString. rewrite Hp. reflexivity.
Qed.

Lemma Category_String_content_shadows_term_witness :
  Category_String (fun s => s) (mkCategory None (Some EmptyString) "technology") = EmptyString.
Proof.
  apply (Category_String_content_shadows_term (fun s => s)
           (mkCategory None (Some EmptyString) "technology") EmptyString);
    [left | | |]; reflexivity.
Defined.

(* ------------------------------------------------------------------------- *)
(** * RSS items *)

Lemma UnescapeString_nonempty (c : ascii) (s : string) : UnescapeString (String c s) <> EmptyString.
Proof.
  simpl.
  repeat match goal with
         | |- context [match ?s with EmptyString => _ | String _ _ => _ end] =>
             is_var s; destruct s as [|?c ?s]
         | |- context [match ?c with Ascii _ _ _ _ _ _ _ _ => _ end] =>
             is_var c; ascii_cases c
         | |- context [match ?b with true => _ | false => _ end] =>
             is_var b; destruct b
         end; discriminate.
Qed.

Lemma UnescapeString_empty (s : string) : UnescapeString s = EmptyString <-> s = EmptyString.
Proof.
  destruct s as [|c s]; [tauto|].
  split; [intros H; exfalso; exact (UnescapeString_nonempty c s H) | discriminate].
Qed.

(** [Item.Validate] rejects an item exactly when both its title and its
    description are empty: unescaping never empties a non-empty value. *)
Theorem RSSItem_Validate_title_or_description (i : RSSItemBody) :
  RSSItem_Validate i = None <-> (ItemTitle i <> EmptyString \/ ItemDescription i <> EmptyString).
Proof.
  unfold RSSItem_Validate.
  destruct (String.eqb_spec (UnescapeString (ItemDescription i)) EmptyString) as [Ed|Ed];
  destruct (String.eqb_spec (UnescapeString (ItemTitle i)) EmptyString) as [Et|Et];
  rewrite ?UnescapeString_empty in Ed, Et; simpl; split; try tauto; discriminate.
Qed.

Lemma prefix_app (a b : string) : String.prefix a (a ++ b) = true.
Proof.
  induction a as [|c a IH]; simpl; [destruct b; reflexivity|].
  destruct (ascii_dec c c) as [_|n]; [exact IH | contradiction].
Qed.

Lemma contains_prefix (s sub : string) : String.prefix sub s = true -> contains s sub = true.
Proof. destruct s; simpl; intros H; rewrite H; reflexivity. Qed.

Lemma contains_app (pre v post : string) : contains (pre ++ v ++ post) v = true.
Proof.
  induction pre as [|c pre IH].
  - simpl. apply contains_prefix, prefix_app.
  - simpl. rewrite IH.
    match goal with |- (if ?b then _ else _) = _ => destruct b end; reflexivity.
Qed.

(** An item with no [<image>] and an enclosure whose type contains an image
    media type anywhere (with parameters, say) takes the enclosure's URL as
    its image. *)
Theorem RSSItem_GetImage_enclosure (MediaContentMediumImage : string) (i : RSSItemBody)
  (e : Enclosure) (pre v post : string)
  (Himage : ItemImage i = None) (Henc : ItemEnclosure i = Some e)
  (Hv : In v MimeTypesImage) (Htype : EnclosureType e = pre ++ v ++ post) :
  RSSItem_GetImage MediaContentMediumImage i = Some (mkImageInfo (EnclosureURL e) None).
Proof.
  unfold RSSItem_GetImage. rewrite Himage, Henc.
  assert (H : IsImage (EnclosureType e) = true).
  { unfold IsImage. apply existsb_exists. exists v. split; [exact Hv|].
    rewrite Htype. apply contains_app. }
  rewrite H. reflexivity.
Qed.

(** A [media:content] element that is not an image ends the search: the
    item reports no image even when it has [media:thumbnail] elements. *)
Theorem RSSItem_GetImage_media_content_hides_thumbnails (MediaContentMediumImage : string)
  (i : RSSItemBody) (c : MediaContent)
  (Himage : ItemImage i = None)
  (Henc : match ItemEnclosure i with Some e => IsImage (EnclosureType e) = false | None => True end)
  (Hmedia : ItemMediaContent i = Some c) (Hmedium : Medium c <> MediaContentMediumImage)
  (Htype : IsImage (MediaType c) = false) :
  RSSItem_GetImage MediaContentMediumImage i = None.
Proof.
  assert (Hm : media_image MediaContentMediumImage i = None).
  { unfold media_image, MediaContent_IsImage. rewrite Hmedia.
    destruct (String.eqb_spec (Medium c) MediaContentMediumImage); [contradiction|].
    rewrite Htype. reflexivity. }
  unfold RSSItem_GetImage. rewrite Himage.
  destruct (ItemEnclosure i) as [e|]; [rewrite Henc|]; exact Hm.
Qed.

Module ExRSSItem.

Definition enclosure : Enclosure :=
  mkEnclosure "https://example.com/cover.jpg" "image/jpeg; charset=binary".
Definition with_enclosure : RSSItemBody :=
  mkRSSItemBody "Title" EmptyString None (Some enclosure) None [].
Definition video : MediaContent := mkMediaContent "video" "https://example.com/clip.mp4" "video/mp4".
Definition with_video : RSSItemBody :=
  mkRSSItemBody "Title" EmptyString None None (Some video)
    [mkMediaThumbnail "https://example.com/thumb.jpg"].

End ExRSSItem.

Lemma RSSItem_GetImage_enclosure_witness :
  RSSItem_GetImage "image" ExRSSItem.with_enclosure =
  Some (mkImageInfo "https://example.com/cover.jpg" None).
Proof.
  apply (RSSItem_GetImage_enclosure "image" ExRSSItem.with_enclosure ExRSSItem.enclosure
           EmptyString "image/jpeg" "; charset=binary"); try reflexivity.
  simpl. tauto.
Defined.

Lemma RSSItem_GetImage_media_content_hides_thumbnails_witness :
  RSSItem_GetImage "image" ExRSSItem.with_video = None.
Proof.
  apply (RSSItem_GetImage_media_content_hides_thumbnails "image" ExRSSItem.with_video
           ExRSSItem.video); try reflexivity; try exact I.
  discriminate.
Defined.
